(** * Example construction and caching of [transformer/dombert/util.py]

    A shallow embedding of the dataset classes of [util.py] and the
    properties of its parsing, grouping, vocabulary, chunking and caching
    code.

    Conventions of the embedding:
    - a Python [str] is a [string]; its characters are the code points
      below 256;
    - a Python [int] is a [Z]; a [list] is a [list];
    - a [dict] (and a [defaultdict]) is an association list in insertion
      order, since the code iterates over its dictionaries;
    - the files of the disk are a finite map from paths to contents;
    - an exception is a constructor of [exn]; a loop that does not stop is
      [OutOfFuel] for every amount of fuel. *)

From stdpp Require Import base option list strings pretty gmap.
From Stdlib Require Import ZArith Lia Ascii.

Open Scope Z_scope.
Open Scope list_scope.

(** ** Results of fallible code *)

Inductive exn : Type :=
| AssertionError
| IndexError
| KeyError
| NameError
| ValueError
| OSError
| OverflowError
| Exception.

Inductive result (A : Type) : Type :=
| Ok (a : A)
| Raise (e : exn)
| OutOfFuel.

Arguments Ok {A} a.
Arguments Raise {A} e.
Arguments OutOfFuel {A}.

Global Instance result_ret : MRet result := fun _ a => Ok a.

Global Instance result_bind : MBind result := fun _ _ k r =>
  match r with
  | Ok a => k a
  | Raise e => Raise e
  | OutOfFuel => OutOfFuel
  end.

(** [for x in xs: s = body(x, s)], stopping at the first exception. *)
Fixpoint for_each {A S : Type} (body : A -> S -> result S) (xs : list A) (s : S)
  : result S :=
  match xs with
  | [] => Ok s
  | x :: xs' => s' ← body x s; for_each body xs' s'
  end.

(** ** Python strings *)

Module Str.

(** [c.isspace()] on the code points below 256. *)
Definition is_space (c : ascii) : bool :=
  let n := N_of_ascii c in
  ((9 <=? n) && (n <=? 13) || (28 <=? n) && (n <=? 32)
   || (n =? 133) || (n =? 160))%N.

Fixpoint lstrip (s : string) : string :=
  match s with
  | EmptyString => EmptyString
  | String c s' => if is_space c then lstrip s' else s
  end.

Fixpoint rstrip (s : string) : string :=
  match s with
  | EmptyString => EmptyString
  | String c s' =>
      match rstrip s' with
      | EmptyString => if is_space c then EmptyString else String c EmptyString
      | r => String c r
      end
  end.

(** [s.strip()] *)
Definition strip (s : string) : string := lstrip (rstrip s).

Definition flush (tok : string) : list string :=
  match tok with
  | EmptyString => []
  | _ => [tok]
  end.

(** [tok] is the word being read. *)
Fixpoint split_go (tok : string) (s : string) : list string :=
  match s with
  | EmptyString => flush tok
  | String c s' =>
      if is_space c then flush tok ++ split_go EmptyString s'
      else split_go (tok +:+ String c EmptyString) s'
  end.

(** [s.split()]: the maximal runs of characters that are not spaces. *)
Definition split (s : string) : list string := split_go EmptyString s.

Fixpoint split_on_go (sep : ascii) (tok : string) (s : string) : list string :=
  match s with
  | EmptyString => [tok]
  | String c s' =>
      if Ascii.eqb c sep then tok :: split_on_go sep EmptyString s'
      else split_on_go sep (tok +:+ String c EmptyString) s'
  end.

(** [s.split(sep)] for a separator of one character: empty fields are kept. *)
Definition split_on (sep : ascii) (s : string) : list string :=
  split_on_go sep EmptyString s.

(** [sep.join(l)] *)
Definition join (sep : string) (l : list string) : string := String.concat sep l.

(** [sub in s] *)
Fixpoint contains (sub s : string) : bool :=
  String.prefix sub s ||
  match s with
  | EmptyString => false
  | String _ s' => contains sub s'
  end.

(** [s.startswith(c)] and [s.endswith(c)] for one character. *)
Definition startswith (c : ascii) (s : string) : bool :=
  match s with
  | String d _ => Ascii.eqb c d
  | EmptyString => false
  end.

Fixpoint endswith (c : ascii) (s : string) : bool :=
  match s with
  | EmptyString => false
  | String d EmptyString => Ascii.eqb c d
  | String _ s' => endswith c s'
  end.

(** [s.rstrip(c)] for one character. *)
Fixpoint rstrip_char (c : ascii) (s : string) : string :=
  match s with
  | EmptyString => EmptyString
  | String d s' =>
      match rstrip_char c s' with
      | EmptyString => if Ascii.eqb c d then EmptyString else String d EmptyString
      | r => String d r
      end
  end.

Fixpoint all_char (c : ascii) (s : string) : bool :=
  match s with
  | EmptyString => true
  | String d s' => Ascii.eqb c d && all_char c s'
  end.

(** The part of [s] after its last [c], and the part up to and with it:
    [s[i:]] and [s[:i]] for [i = s.rfind(c) + 1]. *)
Fixpoint rsplit_after (c : ascii) (s : string) : string * string :=
  match s with
  | EmptyString => (EmptyString, EmptyString)
  | String d s' =>
      let (h, t) := rsplit_after c s' in
      if String.eqb h EmptyString && negb (Ascii.eqb c d)
      then (EmptyString, String d t)
      else (String d h, t)
  end.

End Str.

(** ** Python lists: indexing and slices *)

Module PyList.

(** [l[i]], a negative [i] counting from the end. *)
Definition index {A : Type} (l : list A) (i : Z) : result A :=
  let n := Z.of_nat (length l) in
  let j := if i <? 0 then i + n else i in
  if (j <? 0) || (n <=? j) then Raise IndexError
  else match nth_error l (Z.to_nat j) with
       | Some x => Ok x
       | None => Raise IndexError
       end.

Definition bound (n i : Z) : Z :=
  if i <? 0 then Z.max 0 (i + n) else Z.min i n.

(** [l[start:stop]] *)
Definition slice {A : Type} (l : list A) (start stop : Z) : list A :=
  let n := Z.of_nat (length l) in
  let a := bound n start in
  let b := bound n stop in
  firstn (Z.to_nat (b - a)) (skipn (Z.to_nat a) l).

(** [x in l] for a list of strings. *)
Definition mem (x : string) (l : list string) : bool :=
  existsb (String.eqb x) l.

End PyList.

(** ** Python dictionaries, in insertion order *)

Module Dict.
Section Dict.
Context {V : Type}.

(** [d.get(k)] *)
Fixpoint get (k : string) (d : list (string * V)) : option V :=
  match d with
  | [] => None
  | (k', v) :: d' => if String.eqb k k' then Some v else get k d'
  end.

(** [d[k] = v]: a key that is present keeps its place, a new key goes
    to the end. *)
Fixpoint set (k : string) (v : V) (d : list (string * V)) : list (string * V) :=
  match d with
  | [] => [(k, v)]
  | (k', v') :: d' =>
      if String.eqb k k' then (k', v) :: d' else (k', v') :: set k v d'
  end.

(** [k in d] *)
Definition mem (k : string) (d : list (string * V)) : bool :=
  match get k d with Some _ => true | None => false end.

(** [d[k]] of a plain [dict]. *)
Definition getitem (k : string) (d : list (string * V)) : result V :=
  match get k d with Some v => Ok v | None => Raise KeyError end.

(** The value that [d[k]] gives in a [defaultdict] whose factory makes
    [dflt]; the entry that a miss creates is written by the [set] that
    the caller does with the value. *)
Definition lookup_default (dflt : V) (k : string) (d : list (string * V)) : V :=
  match get k d with Some v => v | None => dflt end.

(** The keys, in the order in which [for k in d] visits them. *)
Definition keys (d : list (string * V)) : list string := map fst d.

End Dict.
End Dict.

(** ** numpy arrays of integers *)

Module Np.

(** A two-dimensional array: its rows. *)
Definition array : Type := list (list Z).

(** Storing an integer in an element of [dtype=np.uint16] keeps its low
    sixteen bits: the C cast that numpy 1.x does on an integer that fits a
    machine word. *)
Definition uint16 (x : Z) : Z := x mod 65536.

(** [a.astype(np.int64)] on one element. *)
Definition int64 (x : Z) : Z := (x + 2 ^ 63) mod 2 ^ 64 - 2 ^ 63.

(** [np.array(rows, dtype=np.uint16)] *)
Definition array_uint16 (rows : list (list Z)) : array := map (map uint16) rows.

Definition same_width (a : array) : bool :=
  match a with
  | [] => true
  | r :: a' => forallb (fun r' => Nat.eqb (length r') (length r)) a'
  end.

(** [np.concatenate(arrays)] along the first axis: it needs at least one
    array, and rows of one width. *)
Definition concatenate (arrays : list array) : result array :=
  match arrays with
  | [] => Raise ValueError
  | _ => let a := concat arrays in
         if same_width a then Ok a else Raise ValueError
  end.







End Np.

(** ** Files *)

(** A file holds what the reader that the program uses on it gets from it:
    the lines of a text file, the object of a JSON file, the array of an
    [.npy] file. *)
Inductive file : Type :=
| TextFile (lines : list string)
| JsonFile (obj : list (string * Z))
| NpyFile (a : Np.array)
| Directory.

Abbreviation disk := (gmap string file).

(** Code that reads and writes files. *)
Record io (A : Type) : Type := IO { run : disk -> result A * disk }.
Arguments IO {A} run.
Arguments run {A} i fs.

Global Instance io_ret : MRet io := fun _ a => IO (fun fs => (Ok a, fs)).

Global Instance io_bind : MBind io := fun _ _ k m =>
  IO (fun fs =>
        match run m fs with
        | (Ok a, fs') => run (k a) fs'
        | (Raise e, fs') => (Raise e, fs')
        | (OutOfFuel, fs') => (OutOfFuel, fs')
        end).

(** Code that touches no file. *)
Definition lift {A : Type} (r : result A) : io A := IO (fun fs => (r, fs)).

(** [assert b] *)
Definition assert_ (b : bool) : io unit :=
  lift (if b then Ok tt else Raise AssertionError).

Module Os.

(** [os.path.isfile(p)] *)
Definition is_file (fs : disk) (p : string) : bool :=
  match fs !! p with
  | Some Directory | None => false
  | Some _ => true
  end.

Definition isfile (p : string) : io bool :=
  IO (fun fs => (Ok (is_file fs p), fs)).

(** [os.path.exists(p)] *)
Definition exists_ (p : string) : io bool :=
  IO (fun fs => (Ok match fs !! p with Some _ => true | None => false end, fs)).

(** [os.path.split(p)] of [posixpath]: the head loses its trailing
    slashes unless it is made of slashes only. *)
Definition split (p : string) : string * string :=
  let (head, tail) := Str.rsplit_after "/" p in
  (if negb (String.eqb head "") && negb (Str.all_char "/" head)
   then Str.rstrip_char "/" head else head, tail).

(** [os.path.join(a, b)] of [posixpath]. *)
Definition join (a b : string) : string :=
  if Str.startswith "/" b then b
  else if String.eqb a "" || Str.endswith "/" a then a +:+ b
  else a +:+ "/" +:+ b.

(** [list(open(p, encoding="utf-8"))] *)
Definition read_lines (p : string) : io (list string) :=
  IO (fun fs => (match fs !! p with
                 | Some (TextFile lines) => Ok lines
                 | Some Directory | None => Raise OSError
                 | Some _ => Raise ValueError
                 end, fs)).

(** [np.load(p)] *)
Definition np_load (p : string) : io Np.array :=
  IO (fun fs => (match fs !! p with
                 | Some (NpyFile a) => Ok a
                 | Some Directory | None => Raise OSError
                 | Some _ => Raise ValueError
                 end, fs)).

(** [np.save(p, a)] for a path that ends in [.npy]. *)
Definition np_save (p : string) (a : Np.array) : io unit :=
  IO (fun fs => match fs !! p with
                | Some Directory => (Raise OSError, fs)
                | _ => (Ok tt, <[p := NpyFile a]> fs)
                end).

(** [json.load(open(p))] *)
Definition json_load (p : string) : io (list (string * Z)) :=
  IO (fun fs => (match fs !! p with
                 | Some (JsonFile obj) => Ok obj
                 | Some Directory | None => Raise OSError
                 | Some _ => Raise ValueError
                 end, fs)).

(** [json.dump(obj, open(p, "w"))] *)
Definition json_dump (obj : list (string * Z)) (p : string) : io unit :=
  IO (fun fs => match fs !! p with
                | Some Directory => (Raise OSError, fs)
                | _ => (Ok tt, <[p := JsonFile obj]> fs)
                end).

End Os.

(** [str(n)] for an integer. *)
Definition str (n : Z) : string := pretty n.

(** ** The tokenizer, a collaborator of the module *)

Record Tokenizer : Type := {
  token : Type;
  tokenize : string -> list token;
  convert_tokens_to_ids : list token -> list Z;
  build_inputs_with_special_tokens : list Z -> list Z
}.

(** ** Header lines *)

(** The three variables that a header line sets. *)
Record tag : Type := { asin : string; rating : string; domain : string }.

(** [segs = text.split(); asin = segs[0]; rating = segs[-1];
     domain = "/".join(" ".join(segs[1:-1]).split("/")[:3])] *)
Definition parse_header (text : string) : result tag :=
  let segs := Str.split text in
  asin ← PyList.index segs 0;
  rating ← PyList.index segs (-1);
  let domain :=
    Str.join "/"
      (PyList.slice (Str.split_on "/" (Str.join " " (PyList.slice segs 1 (-1)))) 0 3) in
  Ok {| asin := asin; rating := rating; domain := domain |}.

(** ** The domain corpus *)

(** [defaultdict(lambda: defaultdict(lambda: defaultdict(list)))]:
    domain, then rating, then identifier, then the texts. *)
Abbreviation texts_of_asin := (list (string * list string)).
Abbreviation asins_of_rating := (list (string * list (string * list string))).
Abbreviation corpus := (list (string * list (string * list (string * list string)))).

(** [domain_corpus[domain][rating][asin].append(text)] *)
Definition append_text (h : tag) (text : string) (dc : corpus) : corpus :=
  let ratings := Dict.lookup_default [] (domain h) dc in
  let asins := Dict.lookup_default [] (rating h) ratings in
  let texts := Dict.lookup_default [] (asin h) asins in
  Dict.set (domain h)
    (Dict.set (rating h) (Dict.set (asin h) (texts ++ [text]) asins) ratings) dc.

(** [len(domain_corpus[domain][rating])], which creates the two entries
    when they are missing. *)
Definition count_asins (h : tag) (dc : corpus) : nat * corpus :=
  let ratings := Dict.lookup_default [] (domain h) dc in
  let asins := Dict.lookup_default [] (rating h) ratings in
  (length asins, Dict.set (domain h) (Dict.set (rating h) asins ratings) dc).

(** The guards of the body lines, one per family of classes. *)

(** [if domain not in dois: ...append(text)] *)
Definition keep_not_in (dois : list string) (h : tag) (text : string) (dc : corpus)
  : corpus :=
  if negb (PyList.mem (domain h) dois) then append_text h text dc else dc.

(** [if domain in dois: ...append(text)] *)
Definition keep_in (dois : list string) (h : tag) (text : string) (dc : corpus)
  : corpus :=
  if PyList.mem (domain h) dois then append_text h text dc else dc.

(** [if len(domain_corpus[domain][rating]) < cap: ...append(text)] *)
Definition keep_capped (cap : Z) (h : tag) (text : string) (dc : corpus) : corpus :=
  let (n, dc') := count_asins h dc in
  if Z.of_nat n <? cap then append_text h text dc' else dc'.

(** The variables of the reading loop; [cur] is [None] while [asin],
    [rating] and [domain] are not bound. *)
Record reader : Type := {
  tag_on : bool;
  cur : option tag;
  domain_corpus : corpus
}.

(** One turn of [for line in f]. *)
Definition read_line (keep : tag -> string -> corpus -> corpus)
    (line : string) (st : reader) : result reader :=
  let text := Str.strip line in
  if Nat.eqb (String.length text) 0 then
    Ok {| tag_on := true; cur := cur st; domain_corpus := domain_corpus st |}
  else if tag_on st then
    h ← parse_header text;
    Ok {| tag_on := false; cur := Some h; domain_corpus := domain_corpus st |}
  else
    match cur st with
    | None => Raise NameError
    | Some h =>
        Ok {| tag_on := false; cur := Some h;
              domain_corpus := keep h text (domain_corpus st) |}
    end.

Definition reader0 : reader :=
  {| tag_on := true; cur := None; domain_corpus := [] |}.

Definition read_corpus (keep : tag -> string -> corpus -> corpus)
    (lines : list string) : result corpus :=
  st ← for_each (read_line keep) lines reader0;
  Ok (domain_corpus st).

(** ** The domain vocabulary *)

Definition DOIDataset_dois : list string :=
  ["Electronics/Computers & Accessories/Laptops"; "Restaurants"].

(** [domain_to_id = {"[DOI]": 0}
     for ix, domain in enumerate(domain_corpus):
         if domain not in dois: domain_to_id[domain] = len(domain_to_id)] *)
Definition DOIDataset_vocab (dois : list string) (dc : corpus) : list (string * Z) :=
  fold_left
    (fun domain_to_id domain =>
       if negb (PyList.mem domain dois)
       then Dict.set domain (Z.of_nat (length domain_to_id)) domain_to_id
       else domain_to_id)
    (Dict.keys dc) [("[DOI]", 0)].

(** [domain_to_id = {"[GENERAL]": 0, "[OTHER]": 1}
     for ix, domain in enumerate(domain_corpus):
         domain_to_id[domain] = len(domain_to_id)] *)
Definition TagEmb_vocab (dc : corpus) : list (string * Z) :=
  fold_left
    (fun domain_to_id domain =>
       Dict.set domain (Z.of_nat (length domain_to_id)) domain_to_id)
    (Dict.keys dc) [("[GENERAL]", 0); ("[OTHER]", 1)].

(** ** The block chunker *)

(** The variables of the chunking loops. [tokenize_calls] is a ghost
    variable: the number of calls of [tokenizer.tokenize] made so far. *)
Record chunker (T E : Type) : Type := {
  buffer : list T;
  examples : list E;
  tokenize_calls : nat
}.
Arguments buffer {T E} c.
Arguments examples {T E} c.
Arguments tokenize_calls {T E} c.

(** [for ix in range(n): block[ix] = buffer.popleft()]: every cell of the
    preallocated [block] is written before the block is read. *)
Fixpoint popleft_n {T : Type} (n : nat) (buffer : list T) : result (list T * list T) :=
  match n with
  | O => Ok ([], buffer)
  | S n' =>
      match buffer with
      | [] => Raise IndexError
      | t :: buffer' =>
          '(block, rest) ← popleft_n n' buffer';
          Ok (t :: block, rest)
      end
  end.

Section Chunk.
Context {T E : Type}.
Variable tokenize : string -> list T.
(** What is appended to [self.examples] for a block of a domain. *)
Variable emit : string -> list T -> result E.
Variable block_size : Z.
(** The number of turns that one [while] loop may take. *)
Variable fuel : nat.

(** [while len(buffer) >= block_size: ...] *)
Fixpoint drain (fuel : nat) (domain : string) (st : chunker T E)
  : result (chunker T E) :=
  if block_size <=? Z.of_nat (length (buffer st)) then
    match fuel with
    | O => OutOfFuel
    | S fuel' =>
        '(block, rest) ← popleft_n (Z.to_nat block_size) (buffer st);
        example ← emit domain block;
        drain fuel' domain
          {| buffer := rest; examples := examples st ++ [example];
             tokenize_calls := tokenize_calls st |}
    end
  else Ok st.

(** The body of [for text in domain_corpus[domain][rating][asin]]. *)
Definition chunk_text (domain : string) (text : string) (st : chunker T E)
  : result (chunker T E) :=
  let tokens := tokenize text in
  drain fuel domain
    {| buffer := buffer st ++ tokens; examples := examples st;
       tokenize_calls := S (tokenize_calls st) |}.

(** The body of [for asin in domain_corpus[domain][rating]]. The
    assignment [domain_corpus[domain][rating][asin] = []] that ends it
    replaces the value of a key that is present, after its texts are
    read: it changes neither the keys being visited nor a text still to
    be read. *)
Definition chunk_asin (domain : string) (entry : string * list string)
    (st : chunker T E) : result (chunker T E) :=
  for_each (chunk_text domain) (snd entry) st.

(** The body of [for rating in domain_corpus[domain]]:
    [buffer = deque()], then the identifiers. *)
Definition chunk_rating (domain : string) (entry : string * texts_of_asin)
    (st : chunker T E) : result (chunker T E) :=
  for_each (chunk_asin domain) (snd entry)
    {| buffer := []; examples := examples st;
       tokenize_calls := tokenize_calls st |}.

(** The body of [for domain in domain_corpus]. *)
Definition chunk_domain (entry : string * asins_of_rating) (st : chunker T E)
  : result (chunker T E) :=
  for_each (chunk_rating (fst entry)) (snd entry) st.

Definition chunk_corpus (dc : corpus) : result (chunker T E) :=
  for_each chunk_domain dc {| buffer := []; examples := []; tokenize_calls := 0 |}.

End Chunk.

(** [if domain in dois: domain_seg = [domain_to_id["[DOI]"]]
     else: domain_seg = [domain_to_id[domain]]] *)
Definition DOIDataset_segment (dois : list string) (domain_to_id : list (string * Z))
    (domain : string) : result (list Z) :=
  if PyList.mem domain dois
  then i ← Dict.getitem "[DOI]" domain_to_id; Ok [i]
  else i ← Dict.getitem domain domain_to_id; Ok [i].

(** The row that [DOIDataset] appends for a block. *)
Definition DOIDataset_example (tk : Tokenizer) (dois : list string)
    (domain_to_id : list (string * Z)) (domain : string) (block : list (token tk))
  : result Np.array :=
  let input_ids := convert_tokens_to_ids tk block in
  domain_seg ← DOIDataset_segment dois domain_to_id domain;
  let input_ids := domain_seg ++ build_inputs_with_special_tokens tk input_ids in
  Ok (Np.array_uint16 [input_ids]).

(** ** The dataset classes *)

(** [self.examples], and the ghost count of the calls of
    [tokenizer.tokenize] that the constructor made. *)
Record dataset : Type := {
  ds_examples : Np.array;
  ds_tokenize_calls : nat
}.

(** [TextDataset.__len__] *)
Definition TextDataset_len (self : dataset) : Z := Z.of_nat (length (ds_examples self)).

(** [TextDataset.__getitem__]: [self.examples[item].astype(np.int64)] *)
Definition TextDataset_getitem (self : dataset) (item : Z) : result (list Z) :=
  row ← PyList.index (ds_examples self) item;
  Ok (map Np.int64 row).

(** [directory, filename = os.path.split(file_path)
     cached_features_file = os.path.join(
         directory, prefix + str(block_size) + '_' + filename + ".npy")] *)
Definition cache_path (prefix file_path : string) (block_size : Z) : string :=
  let '(directory, filename) := Os.split file_path in
  Os.join directory (prefix +:+ str block_size +:+ "_" +:+ filename +:+ ".npy").

(** [if os.path.exists(cached_features_file):
         self.examples = np.load(cached_features_file)
     else: ...], the test that every constructor makes. *)
Definition load_or (cached_features_file : string) (build : io dataset) : io dataset :=
  hit ← Os.exists_ cached_features_file;
  if (hit : bool) then
    a ← Os.np_load cached_features_file;
    mret {| ds_examples := a; ds_tokenize_calls := 0 |}
  else build.

Section Classes.
Variable tk : Tokenizer.
Variable fuel : nat.

(** The loops of [TextDataset.__init__]. *)
Fixpoint TextDataset_drain (fuel : nat) (block_size : Z)
    (st : chunker (token tk) Np.array) : result (chunker (token tk) Np.array) :=
  if block_size <=? Z.of_nat (length (buffer st)) then
    match fuel with
    | O => OutOfFuel
    | S fuel' =>
        let n := Z.of_nat (length (buffer st)) in
        let example :=
          Np.array_uint16
            [build_inputs_with_special_tokens tk
               (convert_tokens_to_ids tk (PyList.slice (buffer st) 0 block_size))] in
        TextDataset_drain fuel' block_size
          {| buffer := PyList.slice (buffer st) block_size n;
             examples := examples st ++ [example];
             tokenize_calls := tokenize_calls st |}
    end
  else Ok st.

Definition TextDataset_line (block_size : Z) (line : string)
    (st : chunker (token tk) Np.array) : result (chunker (token tk) Np.array) :=
  let text := Str.strip line in
  if Nat.ltb 0 (String.length text) then
    let tokens := tokenize tk text in
    TextDataset_drain fuel block_size
      {| buffer := buffer st ++ tokens; examples := examples st;
         tokenize_calls := S (tokenize_calls st) |}
  else Ok st.

Definition TextDataset_init (model_type file_path : string) (block_size : Z)
  : io dataset :=
  is_file ← Os.isfile file_path;
  assert_ is_file;;
  model_type ← lift (PyList.index (Str.split_on "-" model_type) 0);
  let cached_features_file :=
    cache_path (model_type +:+ "_cached_lm_") file_path block_size in
  load_or cached_features_file
    (lines ← Os.read_lines file_path;
     st ← lift (for_each (TextDataset_line block_size) lines
                  {| buffer := []; examples := []; tokenize_calls := 0 |});
     a ← lift (Np.concatenate (examples st));
     Os.np_save cached_features_file a;;
     mret {| ds_examples := a; ds_tokenize_calls := tokenize_calls st |}).

(** What [DOIDataset.__init__] does when there is no cache file. *)
Definition DOIDataset_build (file_path : string) (block_size : Z) : io dataset :=
  let directory := (Os.split file_path).1 in
  let cached_features_file :=
    cache_path "cached_doimerged_" file_path block_size in
  let dois := DOIDataset_dois in
  lines ← Os.read_lines file_path;
  domain_corpus ← lift (read_corpus (keep_not_in dois) lines);
  domain_to_id ←
    (if Str.contains "train" file_path then
       let domain_to_id := DOIDataset_vocab dois domain_corpus in
       Os.json_dump domain_to_id (Os.join directory "doi_domain.json");;
       mret domain_to_id
     else Os.json_load (Os.join directory "doi_domain.json"));
  st ← lift (chunk_corpus (tokenize tk)
               (DOIDataset_example tk dois domain_to_id)
               block_size fuel domain_corpus);
  a ← lift (Np.concatenate (examples st));
  Os.np_save cached_features_file a;;
  mret {| ds_examples := a; ds_tokenize_calls := tokenize_calls st |}.

Definition DOIDataset_init (model_type file_path : string) (block_size : Z)
  : io dataset :=
  is_file ← Os.isfile file_path;
  assert_ is_file;;
  model_type ← lift (PyList.index (Str.split_on "-" model_type) 0);
  load_or (cache_path "cached_doimerged_" file_path block_size)
    (DOIDataset_build file_path block_size).

End Classes.

(** [LaptopTSDataset.__init__] and [RestTSDataset.__init__] differ in the
    name of the cache file only. *)
Definition TSDataset_init (prefix : string) (model_type file_path : string)
    (block_size : Z) : io dataset :=
  is_file ← Os.isfile file_path;
  assert_ is_file;;
  model_type ← lift (PyList.index (Str.split_on "-" model_type) 0);
  load_or (cache_path prefix file_path block_size) (lift (Raise Exception)).

Definition LaptopTSDataset_init : string -> string -> Z -> io dataset :=
  TSDataset_init "cached_doimerged_laptop_".

Definition RestTSDataset_init : string -> string -> Z -> io dataset :=
  TSDataset_init "cached_doimerged_restaurant_".


(** ** Definitions used by the statements *)

(** The texts of the identifier of [h] under its domain and rating, the
    identifiers tracked for its domain and rating, and whether its own
    identifier is one of them. *)
Definition asins_at (h : tag) (dc : corpus) : texts_of_asin :=
  Dict.lookup_default [] (rating h) (Dict.lookup_default [] (domain h) dc).

Definition texts_at (h : tag) (dc : corpus) : list string :=
  Dict.lookup_default [] (asin h) (asins_at h dc).

Definition tracked (h : tag) (dc : corpus) : bool :=
  Dict.mem (asin h) (asins_at h dc).

(** The body lines of a file, each with the header it stands under: the
    records that the parser recognises. *)
Fixpoint body_lines (tag_on : bool) (cur : option tag) (lines : list string)
  : list (tag * string) :=
  match lines with
  | [] => []
  | line :: lines' =>
      let text := Str.strip line in
      if Nat.eqb (String.length text) 0 then body_lines true cur lines'
      else if tag_on then
        match parse_header text with
        | Ok h => body_lines false (Some h) lines'
        | _ => []
        end
      else
        match cur with
        | Some h => (h, text) :: body_lines false cur lines'
        | None => []
        end
  end.

(** The elements of a list in the order of their first occurrence. *)
Definition first_seen (l : list string) : list string :=
  fold_left (fun seen x => if PyList.mem x seen then seen else seen ++ [x]) l [].

(** Consecutive integers from [start]. *)
Fixpoint enumerate_from (start : Z) (ks : list string) : list (string * Z) :=
  match ks with
  | [] => []
  | k :: ks' => (k, start) :: enumerate_from (start + 1) ks'
  end.

(** The blocks of [n] elements of a stream, in order, and what is left
    after the last of them. *)
Definition blocks_of {T : Type} (n : nat) (l : list T) : list (list T) :=
  map (fun i => take n (drop (i * n) l)) (seq 0 (length l / n)).

Definition remainder {T : Type} (n : nat) (l : list T) : list T :=
  drop (length l / n * n) l.

(** The token stream of the identifiers of one domain and rating. *)
Definition group_stream {T : Type} (tokenize : string -> list T)
    (asins : texts_of_asin) : list T :=
  flat_map (fun entry => flat_map tokenize (snd entry)) asins.

Definition group_texts (asins : texts_of_asin) : list string :=
  flat_map snd asins.

(** The blocks of a corpus, each with its domain: those of the stream of
    each domain and rating, one group after the other. *)
Definition corpus_blocks {T : Type} (tokenize : string -> list T) (n : nat)
    (dc : corpus) : list (string * list T) :=
  flat_map
    (fun d => flat_map
                (fun r => map (pair (fst d)) (blocks_of n (group_stream tokenize (snd r))))
                (snd d))
    dc.

(** The streams of the groups of a corpus. *)
Definition corpus_streams {T : Type} (tokenize : string -> list T)
    (dc : corpus) : list (list T) :=
  flat_map (fun d => map (fun r => group_stream tokenize (snd r)) (snd d)) dc.

(** Appending the example of each block in turn. *)
Fixpoint emit_all {T E : Type} (emit : string -> list T -> result E)
    (blocks : list (string * list T)) (exs : list E) : result (list E) :=
  match blocks with
  | [] => Ok exs
  | (d, b) :: blocks' => e ← emit d b; emit_all emit blocks' (exs ++ [e])
  end.

(** A tokenizer to run the definitions on: words, the length of a word as
    its identifier, and the framing of BERT. *)
Definition word_tokenizer : Tokenizer :=
  {| token := string;
     tokenize := Str.split;
     convert_tokens_to_ids := map (fun w => Z.of_nat (String.length w));
     build_inputs_with_special_tokens := fun ids => 101 :: ids ++ [102] |}.


(** The reading loops of the two classes with a cap. *)
Definition DiverseTagEmbDataset_read : list string -> result corpus :=
  read_corpus (keep_capped 50).

Definition LRTagEmbDataset_read : list string -> result corpus :=
  read_corpus (keep_capped 5000).

(** A file of [n] records of the domain [Books] and the rating [5], with
    the identifiers [B0], [B1], ... and one body line each. *)
Definition numbered_records (n : nat) : list string :=
  flat_map (fun i => ["B" +:+ str (Z.of_nat i) +:+ " Books 5"; "text"; ""]) (seq 0 n).


(** A header and a small corpus to run the definitions on. *)
Definition header_B0 : tag := {| asin := "B0"; rating := "5"; domain := "Books" |}.
Definition header_B1 : tag := {| asin := "B1"; rating := "5"; domain := "Books" |}.
Definition corpus_B0 : corpus := [("Books", [("5", [("B0", ["text"])])])].


(** The domain of the header of a body line. *)
Definition body_domain (b : tag * string) : string := domain b.1.

(** [domain not in dois] *)
Definition not_doi (dois : list string) (d : string) : bool :=
  negb (PyList.mem d dois).

(** Grouping the body lines of a file with a guard. *)
Definition group_bodies (keep : tag -> string -> corpus -> corpus)
    (bodies : list (tag * string)) (dc : corpus) : corpus :=
  fold_left (fun dc b => keep b.1 b.2 dc) bodies dc.


(** Two files with a domain that is named like a reserved token. *)
Definition lines_DOI_named : list string :=
  ["A1 [DOI] 5"; "text"; ""; "A2 Books 5"; "more"].

Definition lines_OTHER_named : list string :=
  ["A1 [OTHER] 5"; "text"; ""; "A2 Books 5"; "more"].

(** A file of three records of two domains. *)
Definition lines_books_music : list string :=
  ["A1 Books/Fiction good"; "a bb ccc"; "dddd"; "";
   "A3 Music bad"; "u v w x y"; "";
   "A1 Books/Fiction good"; "eeeee ffffff"].


(** The row of [DOIDataset] for a block, with the segment [seg]. *)
Definition DOIDataset_row (tk : Tokenizer) (seg : list Z) (block : list (token tk))
  : Np.array :=
  Np.array_uint16
    [seg ++ build_inputs_with_special_tokens tk (convert_tokens_to_ids tk block)].

(** The example of a block that keeps the domain and the tokens of the
    block as they are, before any framing. *)
Definition emit_raw {T : Type} (d : string) (b : list T) : result (string * list T) :=
  Ok (d, b).

(** A corpus of one domain with two ratings; the first rating has two
    identifiers. *)
Definition corpus_two_groups : corpus :=
  [("Books", [("5", [("B0", ["a b c"]); ("B1", ["d e"])]);
              ("4", [("B2", ["f g h"])])])].



(** The segment that a vocabulary gives a domain that is not a domain of
    interest. *)
Definition own_segment (domain_to_id : list (string * Z)) (d : string)
  : result (list Z) :=
  i ← Dict.getitem d domain_to_id; Ok [i].


(** The number of a domain in a vocabulary ([0] when it has none). *)
Definition vocab_id (domain_to_id : list (string * Z)) (d : string) : Z :=
  Dict.lookup_default 0 d domain_to_id.

(** A training file and an evaluation file; the second has a domain that
    is named like the reserved token. *)
Definition disk_train_dev : disk :=
  {[ "data/train.txt" := TextFile ["A1 Books 5"; "good text"];
     "data/dev.txt" := TextFile ["A2 [DOI] 5"; "some text"] ]}.


(** The corpus that [DOIDataset] reads from [lines_books_music]. *)
Definition corpus_books_music : corpus :=
  [("Books/Fiction", [("good", [("A1", ["a bb ccc"; "dddd"; "eeeee ffffff"])])]);
   ("Music", [("bad", [("A3", ["u v w x y"])])])].


(** The values of an element of [dtype=np.uint16]. *)
Definition in_uint16 (x : Z) : Prop := 0 <= x <= 65535.

Definition uint16_array (a : Np.array) : Prop := Forall (Forall in_uint16) a.


(** ** The other classes *)


(** [if domain in dois: domain_seg = [domain_to_id["[DOI]"]]
     else: raise ValueError("domain %s is not in DOI", domain)],
    of [LaptopDomainDataset], [RestDomainDataset] and [LRDataset]. *)
Definition DomainDataset_example (tk : Tokenizer) (dois : list string)
    (domain_to_id : list (string * Z)) (domain : string) (block : list (token tk))
  : result Np.array :=
  let input_ids := convert_tokens_to_ids tk block in
  domain_seg ←
    (if PyList.mem domain dois
     then i ← Dict.getitem "[DOI]" domain_to_id; Ok [i]
     else Raise ValueError);
  let input_ids := domain_seg ++ build_inputs_with_special_tokens tk input_ids in
  Ok (Np.array_uint16 [input_ids]).

(** [if domain in domain_to_id: domain_seg = [domain_to_id[domain]]
     else: domain_seg = [domain_to_id["[OTHER]"]]],
    of [DiverseTagEmbDataset] and [LRTagEmbDataset]. *)
Definition TagEmb_example (tk : Tokenizer) (domain_to_id : list (string * Z))
    (domain : string) (block : list (token tk)) : result Np.array :=
  let input_ids := convert_tokens_to_ids tk block in
  domain_seg ←
    (if Dict.mem domain domain_to_id
     then i ← Dict.getitem domain domain_to_id; Ok [i]
     else i ← Dict.getitem "[OTHER]" domain_to_id; Ok [i]);
  let input_ids := domain_seg ++ build_inputs_with_special_tokens tk input_ids in
  Ok (Np.array_uint16 [input_ids]).

Definition LaptopDomainDataset_dois : list string :=
  ["Electronics/Computers & Accessories/Laptops"].

Definition RestDomainDataset_dois : list string := ["Restaurants"].

Section MoreClasses.
Variable tk : Tokenizer.
Variable fuel : nat.

(** What [LaptopDomainDataset], [RestDomainDataset] and [LRDataset] do
    when there is no cache file; they differ in [dois] and in the name of
    the cache file, and always load the vocabulary. *)
Definition DomainDataset_build (prefix : string) (dois : list string)
    (file_path : string) (block_size : Z) : io dataset :=
  let directory := (Os.split file_path).1 in
  lines ← Os.read_lines file_path;
  domain_corpus ← lift (read_corpus (keep_in dois) lines);
  domain_to_id ← Os.json_load (Os.join directory "doi_domain.json");
  st ← lift (chunk_corpus (tokenize tk)
               (DomainDataset_example tk dois domain_to_id)
               block_size fuel domain_corpus);
  a ← lift (Np.concatenate (examples st));
  Os.np_save (cache_path prefix file_path block_size) a;;
  mret {| ds_examples := a; ds_tokenize_calls := tokenize_calls st |}.

Definition DomainDataset_init (prefix : string) (dois : list string)
    (model_type file_path : string) (block_size : Z) : io dataset :=
  is_file ← Os.isfile file_path;
  assert_ is_file;;
  model_type ← lift (PyList.index (Str.split_on "-" model_type) 0);
  load_or (cache_path prefix file_path block_size)
    (DomainDataset_build prefix dois file_path block_size).

Definition LaptopDomainDataset_init : string -> string -> Z -> io dataset :=
  DomainDataset_init "cached_laptop_" LaptopDomainDataset_dois.

Definition RestDomainDataset_init : string -> string -> Z -> io dataset :=
  DomainDataset_init "cached_restaurant_" RestDomainDataset_dois.

Definition LRDataset_init : string -> string -> Z -> io dataset :=
  DomainDataset_init "cached_lr_" DOIDataset_dois.

(** The vocabulary of the two classes with tags: built and written for a
    training file, loaded otherwise. *)
Definition TagEmb_domain_to_id (file_path : string) (dc : corpus)
  : io (list (string * Z)) :=
  let directory := (Os.split file_path).1 in
  if Str.contains "train" file_path then
    let domain_to_id := TagEmb_vocab dc in
    Os.json_dump domain_to_id (Os.join directory "diverse_domain.json");;
    mret domain_to_id
  else Os.json_load (Os.join directory "diverse_domain.json").

Definition DiverseTagEmbDataset_build (file_path : string) (block_size : Z)
  : io dataset :=
  lines ← Os.read_lines file_path;
  domain_corpus ← lift (DiverseTagEmbDataset_read lines);
  domain_to_id ← TagEmb_domain_to_id file_path domain_corpus;
  st ← lift (chunk_corpus (tokenize tk) (TagEmb_example tk domain_to_id)
               block_size fuel domain_corpus);
  a ← lift (Np.concatenate (examples st));
  Os.np_save (cache_path "cached_diversetagemb_" file_path block_size) a;;
  mret {| ds_examples := a; ds_tokenize_calls := tokenize_calls st |}.

Definition DiverseTagEmbDataset_init (model_type file_path : string)
    (block_size : Z) : io dataset :=
  is_file ← Os.isfile file_path;
  assert_ is_file;;
  model_type ← lift (PyList.index (Str.split_on "-" model_type) 0);
  load_or (cache_path "cached_diversetagemb_" file_path block_size)
    (DiverseTagEmbDataset_build file_path block_size).

(** [for domain in ["Electronics/Computers & Accessories/Laptops",
                    "Restaurants"]:
         for rating in domain_corpus[domain]: ...]
    of [LRTagEmbDataset]: [domain_corpus[domain]] is the empty dictionary
    for a domain that the corpus does not have (the entry that this
    creates is read by nothing afterwards). *)
Definition LRTagEmbDataset_chunk (domain_to_id : list (string * Z))
    (block_size : Z) (dc : corpus) : result (chunker (token tk) Np.array) :=
  for_each
    (fun domain st =>
       chunk_domain (tokenize tk) (TagEmb_example tk domain_to_id) block_size fuel
         (domain, Dict.lookup_default [] domain dc) st)
    DOIDataset_dois
    {| buffer := []; examples := []; tokenize_calls := 0 |}.

Definition LRTagEmbDataset_build (file_path : string) (block_size : Z)
  : io dataset :=
  lines ← Os.read_lines file_path;
  domain_corpus ← lift (LRTagEmbDataset_read lines);
  domain_to_id ← TagEmb_domain_to_id file_path domain_corpus;
  st ← lift (LRTagEmbDataset_chunk domain_to_id block_size domain_corpus);
  a ← lift (Np.concatenate (examples st));
  Os.np_save (cache_path "cached_lrtagemb_" file_path block_size) a;;
  mret {| ds_examples := a; ds_tokenize_calls := tokenize_calls st |}.

Definition LRTagEmbDataset_init (model_type file_path : string)
    (block_size : Z) : io dataset :=
  is_file ← Os.isfile file_path;
  assert_ is_file;;
  model_type ← lift (PyList.index (Str.split_on "-" model_type) 0);
  load_or (cache_path "cached_lrtagemb_" file_path block_size)
    (LRTagEmbDataset_build file_path block_size).

(** The variables of the loop of [SkipTagDataset]: [tag_on], and the
    buffer and the examples. The header lines are skipped; the [while]
    loop is the one of [TextDataset]. *)
Definition SkipTagDataset_line (block_size : Z) (line : string)
    (st : bool * chunker (token tk) Np.array)
  : result (bool * chunker (token tk) Np.array) :=
  let text := Str.strip line in
  if Nat.eqb (String.length text) 0 then Ok (true, st.2)
  else if st.1 then Ok (false, st.2)
  else
    let tokens := tokenize tk text in
    c ← TextDataset_drain tk fuel block_size
          {| buffer := buffer st.2 ++ tokens; examples := examples st.2;
             tokenize_calls := S (tokenize_calls st.2) |};
    Ok (false, c).

Definition SkipTagDataset_init (model_type file_path : string) (block_size : Z)
  : io dataset :=
  is_file ← Os.isfile file_path;
  assert_ is_file;;
  model_type ← lift (PyList.index (Str.split_on "-" model_type) 0);
  let cached_features_file := cache_path "cached_skiptag_" file_path block_size in
  load_or cached_features_file
    (lines ← Os.read_lines file_path;
     st ← lift (for_each (SkipTagDataset_line block_size) lines
                  (true, {| buffer := []; examples := []; tokenize_calls := 0 |}));
     a ← lift (Np.concatenate (examples st.2));
     Os.np_save cached_features_file a;;
     mret {| ds_examples := a; ds_tokenize_calls := tokenize_calls st.2 |}).

End MoreClasses.

(** [load_and_cache_examples]: the file is the evaluation file or the
    training file of the arguments. *)
Record arguments : Type := {
  args_model_type : string;
  args_train_data_file : string;
  args_eval_data_file : string;
  args_block_size : Z
}.

Definition load_and_cache_examples
    (dataset_cls : string -> string -> Z -> io dataset)
    (args : arguments) (evaluate : bool) : io dataset :=
  dataset_cls (args_model_type args)
    (if evaluate then args_eval_data_file args else args_train_data_file args)
    (args_block_size args).

(** ** More definitions used by the statements *)



(** The texts of a corpus, in the order in which the chunker reads them. *)
Definition corpus_texts (dc : corpus) : list string :=
  flat_map (fun d => flat_map (fun r => group_texts (snd r)) (snd d)) dc.


(** The identifiers of every domain and rating of a corpus number at most
    [cap]. *)
Definition capped (cap : nat) (dc : corpus) : Prop :=
  forall d ratings r asins,
    In (d, ratings) dc -> In (r, asins) ratings -> (length asins <= cap)%nat.

(** The number of occurrences of a character in a string. *)
Fixpoint count_char (c : ascii) (s : string) : nat :=
  match s with
  | EmptyString => 0
  | String d s' => (if Ascii.eqb d c then 1 else 0) + count_char c s'
  end.


(** The identifiers of every rating of a domain number at most [cap]. *)
Definition ratings_capped (cap : nat) (ratings : asins_of_rating) : Prop :=
  forall r asins, In (r, asins) ratings -> (length asins <= cap)%nat.

(** The blocks of the domains of [dois], in the order of [dois]. *)
Definition fixed_domain_blocks {T : Type} (tokenize : string -> list T) (n : nat)
    (dois : list string) (dc : corpus) : list (string * list T) :=
  flat_map
    (fun d => flat_map
                (fun r => map (pair d) (blocks_of n (group_stream tokenize (snd r))))
                (Dict.lookup_default [] d dc))
    dois.

(** A corpus with a domain of interest between two other domains. *)
Definition corpus_mixed : corpus :=
  [("Restaurants", [("5", [("R1", ["x y z"])])]);
   ("Books", [("4", [("B1", ["a b"])])]);
   ("Electronics/Computers & Accessories/Laptops", [("3", [("L1", ["p q r s"])])])].


(** The path of the vocabulary of [DOIDataset] and of the classes of one
    merged domain, beside the source file. *)
Definition doi_domain_path (file_path : string) : string :=
  Os.join (Os.split file_path).1 "doi_domain.json".


(** A training file of one record, and the files of a directory that has
    only it. *)
Definition disk_train : disk :=
  {[ "data/train.txt" := TextFile ["A1 Books 5"; "good text"] ]}.

Definition disk_dev : disk :=
  {[ "data/dev.txt" := TextFile ["A1 Books 5"; "good text"] ]}.


(** Two headers with the same identifier, rating and domain. *)
Definition tag_eqb (h h' : tag) : bool :=
  String.eqb (asin h) (asin h') && String.eqb (rating h) (rating h')
  && String.eqb (domain h) (domain h').

(** The texts of the body lines that stand under the header [h]. *)
Definition texts_under (h : tag) (bodies : list (tag * string)) : list string :=
  map snd (List.filter (fun b => tag_eqb h b.1) bodies).


(** Whether a string has a character that is a space. *)
Fixpoint has_space (s : string) : bool :=
  match s with
  | EmptyString => false
  | String c s' => Str.is_space c || has_space s'
  end.

(** ** The integers of a row *)





(** A second file that shows the domains of [lines_books_music] first in
    the same order, with other identifiers, ratings and texts. *)
Definition lines_two_domains : list string :=
  ["B9 Books/Fiction 1"; "x"; ""; "B8 Music 2"; "y z"; ""; "B7 Music 2"; "w"].


(** * Properties *)

(** ** Bind *)

Lemma bind_Ok {A B : Type} (a : A) (k : A -> result B) : (Ok a ≫= k) = k a.
Proof. reflexivity. Qed.

Lemma bind_Raise {A B : Type} (e : exn) (k : A -> result B) :
  (Raise e ≫= k) = Raise e.
Proof. reflexivity. Qed.

Lemma bind_assoc {A B C : Type} (r : result A) (k : A -> result B)
    (k' : B -> result C) :
  ((r ≫= k) ≫= k') = (r ≫= fun a => k a ≫= k').
Proof. destruct r; reflexivity. Qed.

Lemma bind_ext {A B : Type} (r : result A) (k k' : A -> result B) :
  (forall a, k a = k' a) -> (r ≫= k) = (r ≫= k').
Proof. intros H. destruct r; simpl; auto. Qed.

(** ** Indexing and slices *)

Section PyListFacts.
Context {A : Type}.
Implicit Types l : list A.

Lemma index_nil (i : Z) : PyList.index (@nil A) i = Raise IndexError.
Proof.
  unfold PyList.index. cbn [length]. rewrite Nat2Z.inj_0.
  destruct (i <? 0) eqn:Hi.
  - rewrite Z.add_0_r, Hi. reflexivity.
  - destruct (0 <=? i) eqn:H0.
    + rewrite orb_true_r. reflexivity.
    + apply Z.leb_gt in H0. apply Z.ltb_ge in Hi. lia.
Qed.

Lemma index_first (a : A) l : PyList.index (a :: l) 0 = Ok a.
Proof.
  unfold PyList.index. cbn [length].
  replace (0 <? 0) with false by reflexivity.
  destruct (Z.of_nat (S (length l)) <=? 0) eqn:H; [apply Z.leb_le in H; lia|].
  reflexivity.
Qed.

Lemma index_last l (z : A) : PyList.index (l ++ [z]) (-1) = Ok z.
Proof.
  unfold PyList.index. rewrite length_app. cbn [length].
  replace (-1 <? 0) with true by reflexivity.
  set (n := Z.of_nat (length l + 1)).
  assert (Hn : n = Z.of_nat (length l) + 1) by (unfold n; lia).
  destruct (-1 + n <? 0) eqn:H1; [apply Z.ltb_lt in H1; lia|].
  destruct (n <=? -1 + n) eqn:H2; [apply Z.leb_le in H2; lia|].
  cbn [orb]. replace (Z.to_nat (-1 + n)) with (length l) by lia.
  rewrite nth_error_app2 by lia. rewrite Nat.sub_diag. reflexivity.
Qed.

Lemma slice_middle (a z : A) l : PyList.slice (a :: l ++ [z]) 1 (-1) = l.
Proof.
  unfold PyList.slice, PyList.bound. cbn [length]. rewrite length_app.
  cbn [length].
  replace (1 <? 0) with false by reflexivity.
  replace (-1 <? 0) with true by reflexivity.
  set (n := Z.of_nat (S (length l + 1))).
  assert (Hn : n = Z.of_nat (length l) + 2) by (unfold n; lia).
  replace (Z.to_nat (Z.min 1 n)) with 1%nat by lia.
  replace (Z.to_nat (Z.max 0 (-1 + n) - Z.min 1 n)) with (length l) by lia.
  cbn [skipn]. rewrite drop_0. apply take_app_length.
Qed.

Lemma slice_prefix l (k : Z) :
  0 <= k -> PyList.slice l 0 k = firstn (Z.to_nat k) l.
Proof.
  intros Hk. unfold PyList.slice, PyList.bound.
  replace (0 <? 0) with false by reflexivity.
  destruct (k <? 0) eqn:H; [apply Z.ltb_lt in H; lia|].
  replace (Z.min 0 (Z.of_nat (length l))) with 0 by lia.
  rewrite Z.sub_0_r. change (Z.to_nat 0) with 0%nat. rewrite drop_0.
  destruct (Z.le_gt_cases k (Z.of_nat (length l))).
  - now rewrite Z.min_l by lia.
  - rewrite Z.min_r by lia. rewrite Nat2Z.id.
    rewrite firstn_all. symmetry. apply firstn_all2. lia.
Qed.

Lemma slice_single (a : A) : PyList.slice [a] 1 (-1) = [].
Proof. reflexivity. Qed.

Lemma two_or_more l :
  (2 <= length l)%nat -> exists a mid z, l = a :: mid ++ [z].
Proof.
  intros H. destruct l as [|a l]; [simpl in H; lia|].
  destruct (exists_last (l := l)) as (mid & z & ->).
  - intros ->. simpl in H. lia.
  - eauto.
Qed.

End PyListFacts.

(** ** Splitting a line into words *)

Lemma append_char_nonempty (tok : string) (c : ascii) :
  tok +:+ String c EmptyString <> EmptyString.
Proof. destruct tok; discriminate. Qed.

Lemma split_go_nonempty (tok s : string) :
  tok <> EmptyString -> Str.split_go tok s <> [].
Proof.
  revert tok. induction s as [|c s IH]; intros tok Htok; simpl.
  - destruct tok; [congruence | discriminate].
  - destruct (Str.is_space c).
    + destruct tok; [congruence | discriminate].
    + apply IH, append_char_nonempty.
Qed.

Lemma lstrip_head (s : string) :
  Str.lstrip s = EmptyString \/
  exists c s', Str.lstrip s = String c s' /\ Str.is_space c = false.
Proof.
  induction s as [|c s IH]; simpl; [now left|].
  destruct (Str.is_space c) eqn:Hc; [exact IH|]. right. eauto.
Qed.

(** A line that is not blank has a word. *)
Lemma split_strip_nonempty (line : string) :
  Str.strip line <> EmptyString -> Str.split (Str.strip line) <> [].
Proof.
  unfold Str.strip. intros Hne.
  destruct (lstrip_head (Str.rstrip line)) as [H | (c & s' & H & Hc)];
    [congruence|].
  rewrite H. unfold Str.split. simpl. rewrite Hc.
  apply split_go_nonempty. discriminate.
Qed.

Lemma parse_header_index_error (text : string) :
  parse_header text = Raise IndexError <-> Str.split text = [].
Proof.
  unfold parse_header. split.
  - destruct (Str.split text) as [|a l]; [reflexivity|].
    rewrite index_first. simpl.
    destruct (exists_last (l := a :: l)) as (l' & z & ->); [discriminate|].
    rewrite index_last. discriminate.
  - intros ->. reflexivity.
Qed.

Lemma parse_header_one (text t : string) :
  Str.split text = [t] ->
  parse_header text = Ok {| asin := t; rating := t; domain := "" |}.
Proof. unfold parse_header. intros ->. reflexivity. Qed.

(** A header line is never without a word: its parsing raises no error. *)
Lemma parse_header_total (line : string) :
  Str.strip line <> EmptyString -> exists h, parse_header (Str.strip line) = Ok h.
Proof.
  intros Hne. apply split_strip_nonempty in Hne.
  unfold parse_header. destruct (Str.split (Str.strip line)) as [|a l]; [congruence|].
  rewrite index_first. simpl.
  destruct (exists_last (l := a :: l)) as (l' & z & ->); [discriminate|].
  rewrite index_last. simpl. eauto.
Qed.

(** C4 (as amended): a header line with fewer than two words has exactly
    one word [t], and its parsing raises no error: the identifier and the
    rating are both [t] and the domain is empty. *)
Theorem header_with_one_word (line : string) :
  Str.strip line <> EmptyString ->
  (length (Str.split (Str.strip line)) < 2)%nat ->
  exists t, Str.split (Str.strip line) = [t] /\
            parse_header (Str.strip line)
            = Ok {| asin := t; rating := t; domain := "" |}.
Proof.
  intros Hne Hlen. apply split_strip_nonempty in Hne.
  destruct (Str.split (Str.strip line)) as [|t [|t' l]] eqn:Hsplit.
  - congruence.
  - exists t. split; [reflexivity|]. now apply parse_header_one.
  - simpl in Hlen. lia.
Qed.

Lemma header_with_one_word_witness :
  exists t, Str.split (Str.strip " B00X ") = [t] /\
            parse_header (Str.strip " B00X ")
            = Ok {| asin := t; rating := t; domain := "" |}.
Proof.
  apply (header_with_one_word " B00X ").
  - vm_compute. discriminate.
  - vm_compute. lia.
Defined.

(** C4 (as stated) fails: the header line [B00X] has one word and its
    parsing raises no index error. *)
Lemma header_index_error_counterexample :
  (length (Str.split "B00X") < 2)%nat /\
  parse_header "B00X" = Ok {| asin := "B00X"; rating := "B00X"; domain := "" |} /\
  parse_header "B00X" <> Raise IndexError.
Proof. split; [vm_compute; lia|]. split; [reflexivity | discriminate]. Qed.

(** C5: a header line with two words or more is its first word, its middle
    words and its last word; the identifier is the first, the rating the
    last, and the domain the first three fields between slashes of the
    middle words joined by single spaces. *)
Theorem parse_header_well_formed (text : string) :
  (2 <= length (Str.split text))%nat ->
  exists first middle last,
    Str.split text = first :: middle ++ [last] /\
    parse_header text
    = Ok {| asin := first; rating := last;
            domain := Str.join "/" (firstn 3 (Str.split_on "/" (Str.join " " middle))) |}.
Proof.
  intros Hlen. destruct (two_or_more _ Hlen) as (a & mid & z & Hsplit).
  exists a, mid, z. split; [exact Hsplit|].
  unfold parse_header. rewrite Hsplit.
  rewrite index_first. simpl.
  pose proof (index_last (a :: mid) z) as Hlast. simpl in Hlast.
  rewrite Hlast. simpl.
  rewrite slice_middle. rewrite slice_prefix by lia. reflexivity.
Qed.

Lemma parse_header_well_formed_witness :
  exists first middle last,
    Str.split "A1 Electronics/Computers & Accessories/Laptops/Sub good"
    = first :: middle ++ [last] /\
    parse_header "A1 Electronics/Computers & Accessories/Laptops/Sub good"
    = Ok {| asin := first; rating := last;
            domain := Str.join "/" (firstn 3 (Str.split_on "/" (Str.join " " middle))) |}.
Proof.
  apply (parse_header_well_formed
           "A1 Electronics/Computers & Accessories/Laptops/Sub good").
  vm_compute. lia.
Defined.

Example parse_header_laptop :
  parse_header "A1 Electronics/Computers & Accessories/Laptops/Sub good"
  = Ok {| asin := "A1"; rating := "good";
          domain := "Electronics/Computers & Accessories/Laptops" |}.
Proof. reflexivity. Qed.

(** ** Dictionaries *)

Section DictFacts.
Context {V : Type}.
Implicit Types d : list (string * V).

Lemma dict_get_set_eq k v d : Dict.get k (Dict.set k v d) = Some v.
Proof.
  induction d as [|[k' v'] d IH]; simpl.
  - now rewrite String.eqb_refl.
  - destruct (String.eqb k k') eqn:E; simpl; rewrite E; auto.
Qed.

Lemma dict_get_set_ne k k' v d :
  k <> k' -> Dict.get k' (Dict.set k v d) = Dict.get k' d.
Proof.
  intros Hne. assert (Hk : String.eqb k' k = false).
  { apply String.eqb_neq. congruence. }
  induction d as [|[k0 v0] d IH]; simpl.
  - now rewrite Hk.
  - destruct (String.eqb k k0) eqn:E; simpl.
    + apply String.eqb_eq in E. subst k0. now rewrite Hk.
    + now rewrite IH.
Qed.

Lemma dict_set_get_id k v d : Dict.get k d = Some v -> Dict.set k v d = d.
Proof.
  induction d as [|[k' v'] d IH]; simpl; [discriminate|].
  destruct (String.eqb k k') eqn:E.
  - now intros [= ->].
  - intros H. now rewrite IH.
Qed.

Lemma dict_set_fresh k v d : Dict.get k d = None -> Dict.set k v d = d ++ [(k, v)].
Proof.
  induction d as [|[k' v'] d IH]; simpl; [reflexivity|].
  destruct (String.eqb k k') eqn:E; [discriminate|].
  intros H. now rewrite IH.
Qed.

Lemma dict_lookup_default_set_eq dflt k v d :
  Dict.lookup_default dflt k (Dict.set k v d) = v.
Proof. unfold Dict.lookup_default. now rewrite dict_get_set_eq. Qed.

Lemma dict_mem_keys k d : Dict.mem k d = PyList.mem k (Dict.keys d).
Proof.
  unfold Dict.mem, PyList.mem, Dict.keys.
  induction d as [|[k' v'] d IH]; simpl; [reflexivity|].
  destruct (String.eqb k k'); simpl; auto.
Qed.

Lemma dict_keys_set k v d :
  Dict.keys (Dict.set k v d)
  = if Dict.mem k d then Dict.keys d else Dict.keys d ++ [k].
Proof.
  unfold Dict.mem.
  destruct (Dict.get k d) as [v'|] eqn:H.
  - revert H. unfold Dict.keys.
    induction d as [|[k0 v0] d IH]; simpl; [discriminate|].
    destruct (String.eqb k k0) eqn:E; simpl; [reflexivity|].
    intros H. f_equal. now apply IH.
  - rewrite dict_set_fresh by assumption. unfold Dict.keys.
    now rewrite map_app.
Qed.

Lemma dict_get_None_not_in k d : Dict.get k d = None <-> ~ In k (Dict.keys d).
Proof.
  unfold Dict.keys. induction d as [|[k' v'] d IH]; simpl; [tauto|].
  destruct (String.eqb k k') eqn:E.
  - apply String.eqb_eq in E. subst. split; [discriminate | tauto].
  - apply String.eqb_neq in E. rewrite IH. split; [intros H [H'|H']; congruence | tauto].
Qed.

End DictFacts.

Lemma mem_true_iff (x : string) (l : list string) :
  PyList.mem x l = true <-> In x l.
Proof.
  unfold PyList.mem. rewrite existsb_exists. split.
  - intros (y & Hy & E). apply String.eqb_eq in E. now subst.
  - intros H. exists x. split; [assumption | apply String.eqb_refl].
Qed.

Lemma mem_false_iff (x : string) (l : list string) :
  PyList.mem x l = false <-> ~ In x l.
Proof.
  rewrite <- mem_true_iff. destruct (PyList.mem x l); split; congruence.
Qed.

(** ** The cap on the identifiers of a domain and rating *)

Lemma asins_at_append_text h text dc :
  asins_at h (append_text h text dc)
  = Dict.set (asin h) (texts_at h dc ++ [text]) (asins_at h dc).
Proof.
  unfold asins_at, append_text, texts_at, asins_at.
  now rewrite !dict_lookup_default_set_eq.
Qed.

Lemma asins_at_count_asins h dc :
  asins_at h (count_asins h dc).2 = asins_at h dc.
Proof.
  unfold asins_at, count_asins. simpl. now rewrite !dict_lookup_default_set_eq.
Qed.

Lemma texts_at_append_text h text dc :
  texts_at h (append_text h text dc) = texts_at h dc ++ [text].
Proof.
  unfold texts_at at 1. rewrite asins_at_append_text.
  apply dict_lookup_default_set_eq.
Qed.

Lemma lookup_default_nonempty {V : Type} (k : string)
    (d : list (string * list V)) :
  Dict.lookup_default [] k d <> [] -> Dict.get k d = Some (Dict.lookup_default [] k d).
Proof. unfold Dict.lookup_default. destruct (Dict.get k d); congruence. Qed.

Lemma count_asins_id h dc :
  asins_at h dc <> [] -> (count_asins h dc).2 = dc.
Proof.
  unfold asins_at, count_asins. simpl. intros Hne.
  pose proof (lookup_default_nonempty _ _ Hne) as Hr.
  assert (Hd : Dict.lookup_default [] (domain h) dc <> []).
  { intros E. rewrite E in Hr. discriminate. }
  apply lookup_default_nonempty in Hd.
  rewrite (dict_set_get_id _ _ _ Hr). now apply dict_set_get_id.
Qed.

(** C3 (as amended): the cap is tested before every insertion. While
    fewer than [cap] identifiers are tracked for the domain and rating of
    a body line, the line is appended to the texts of its identifier; once
    [cap] identifiers are tracked, the line is dropped and the corpus stays
    as it is, whether the identifier of the line is tracked or not.
    The caps of the classes are 50 and 5000. *)
Theorem keep_capped_cap (cap : Z) (h : tag) (text : string) (dc : corpus) :
  0 < cap ->
  (Z.of_nat (length (asins_at h dc)) < cap ->
   texts_at h (keep_capped cap h text dc) = texts_at h dc ++ [text]) /\
  (cap <= Z.of_nat (length (asins_at h dc)) ->
   keep_capped cap h text dc = dc).
Proof.
  intros Hcap. unfold keep_capped.
  destruct (count_asins h dc) as [n dc'] eqn:Hc.
  assert (Hn : n = length (asins_at h dc)).
  { unfold count_asins in Hc. now inversion Hc. }
  assert (Hdc' : dc' = (count_asins h dc).2) by now rewrite Hc.
  split; intros Hlt.
  - destruct (Z.ltb_spec (Z.of_nat n) cap); [|lia].
    rewrite texts_at_append_text. subst dc'. unfold texts_at.
    now rewrite asins_at_count_asins.
  - destruct (Z.ltb_spec (Z.of_nat n) cap); [lia|].
    subst dc'. apply count_asins_id.
    intros E. rewrite E in Hlt. simpl in Hlt. lia.
Qed.

Lemma keep_capped_cap_witness :
  (Z.of_nat (length (asins_at header_B1 corpus_B0)) < 50 ->
   texts_at header_B1 (keep_capped 50 header_B1 "more" corpus_B0)
   = texts_at header_B1 corpus_B0 ++ ["more"]) /\
  (50 <= Z.of_nat (length (asins_at header_B1 corpus_B0)) ->
   keep_capped 50 header_B1 "more" corpus_B0 = corpus_B0).
Proof. apply (keep_capped_cap 50 header_B1 "more" corpus_B0). lia. Defined.

(** C3 (as stated) fails: after fifty records of one domain and rating,
    [B0] is tracked, and the body line of one more record of [B0] is not
    added to its texts. *)
Lemma tracked_identifier_counterexample :
  exists dc dc',
    DiverseTagEmbDataset_read (numbered_records 50) = Ok dc /\
    DiverseTagEmbDataset_read (numbered_records 50 ++ ["B0 Books 5"; "more"]) = Ok dc' /\
    tracked header_B0 dc = true /\
    texts_at header_B0 dc = ["text"] /\
    texts_at header_B0 dc' = ["text"] /\
    texts_at header_B0 dc' <> texts_at header_B0 dc ++ ["more"].
Proof.
  destruct (DiverseTagEmbDataset_read (numbered_records 50)) as [dc| |] eqn:H1;
    [|vm_compute in H1; discriminate..].
  destruct (DiverseTagEmbDataset_read (numbered_records 50 ++ ["B0 Books 5"; "more"]))
    as [dc'| |] eqn:H2; [|vm_compute in H2; discriminate..].
  exists dc, dc'. split; [reflexivity|]. split; [reflexivity|].
  vm_compute in H1. vm_compute in H2.
  injection H1 as <-. injection H2 as <-.
  split; [reflexivity|]. split; [reflexivity|]. split; [reflexivity|].
  discriminate.
Qed.

(** ** Reading a file is parsing its records, then grouping them *)

Lemma for_each_app {A S : Type} (body : A -> S -> result S) (xs ys : list A) (s : S) :
  for_each body (xs ++ ys) s = (for_each body xs s ≫= for_each body ys).
Proof.
  revert s. induction xs as [|x xs IH]; intros s; simpl; [reflexivity|].
  destruct (body x s); simpl; auto.
Qed.

Lemma strip_length_0 (text : string) :
  Nat.eqb (String.length text) 0 = false -> text <> EmptyString.
Proof. intros H ->. discriminate. Qed.

Lemma read_lines_bodies keep (lines : list string) (st : reader) :
  (tag_on st = false -> cur st <> None) ->
  exists st',
    for_each (read_line keep) lines st = Ok st' /\
    domain_corpus st'
    = group_bodies keep (body_lines (tag_on st) (cur st) lines) (domain_corpus st).
Proof.
  revert st. induction lines as [|line lines IH]; intros st Hinv.
  - exists st. split; reflexivity.
  - cbn [for_each body_lines].
    set (rest := for_each (read_line keep) lines) in *.
    unfold read_line.
    destruct (Nat.eqb (String.length (Str.strip line)) 0) eqn:Hblank.
    + rewrite bind_Ok.
      destruct (IH {| tag_on := true; cur := cur st;
                      domain_corpus := domain_corpus st |}) as (st' & H1 & H2);
        [discriminate|].
      exists st'. split; assumption.
    + destruct (tag_on st) eqn:Htag.
      * destruct (parse_header_total line (strip_length_0 _ Hblank)) as (h & Hh).
        rewrite Hh, !bind_Ok.
        destruct (IH {| tag_on := false; cur := Some h;
                        domain_corpus := domain_corpus st |}) as (st' & H1 & H2);
          [discriminate|].
        exists st'. split; assumption.
      * destruct (cur st) as [h|] eqn:Hcur; [|now destruct Hinv].
        rewrite bind_Ok.
        destruct (IH {| tag_on := false; cur := Some h;
                        domain_corpus := keep h (Str.strip line) (domain_corpus st) |})
          as (st' & H1 & H2); [discriminate|].
        exists st'. split; [assumption|]. rewrite H2. reflexivity.
Qed.

(** The reading loop raises nothing, and its corpus is the grouping of the
    body lines of the file. *)
Lemma read_corpus_bodies keep (lines : list string) :
  read_corpus keep lines = Ok (group_bodies keep (body_lines true None lines) []).
Proof.
  unfold read_corpus.
  destruct (read_lines_bodies keep lines reader0) as (st' & H1 & H2);
    [discriminate|].
  rewrite H1, bind_Ok. now rewrite H2.
Qed.

Lemma group_bodies_snoc keep bodies b dc :
  group_bodies keep (bodies ++ [b]) dc = keep b.1 b.2 (group_bodies keep bodies dc).
Proof. unfold group_bodies. now rewrite fold_left_app. Qed.

(** ** The order of the domains of a corpus *)

Lemma first_seen_snoc (l : list string) (x : string) :
  first_seen (l ++ [x])
  = if PyList.mem x (first_seen l) then first_seen l else first_seen l ++ [x].
Proof. unfold first_seen. now rewrite fold_left_app. Qed.

Lemma In_first_seen (l : list string) (x : string) :
  In x (first_seen l) <-> In x l.
Proof.
  revert x. induction l as [|y l IH] using rev_ind; intros x; [reflexivity|].
  rewrite first_seen_snoc, in_app_iff. simpl.
  destruct (PyList.mem y (first_seen l)) eqn:Hm.
  - apply mem_true_iff in Hm. apply IH in Hm. rewrite IH.
    split; [tauto|]. intros [H|[<-|[]]]; assumption.
  - rewrite in_app_iff. simpl. rewrite IH. tauto.
Qed.

Lemma NoDup_first_seen (l : list string) : NoDup (first_seen l).
Proof.
  induction l as [|y l IH] using rev_ind; [constructor|].
  rewrite first_seen_snoc.
  destruct (PyList.mem y (first_seen l)) eqn:Hm; [assumption|].
  apply mem_false_iff in Hm.
  apply NoDup_app. split; [assumption|]. split.
  - intros x Hx Hy. apply list_elem_of_In in Hx. apply list_elem_of_In in Hy.
    destruct Hy as [<-|[]]. contradiction.
  - apply NoDup_singleton.
Qed.

Lemma keys_touch {V : Type} (k : string) (v : V) (d : list (string * V)) :
  Dict.keys (Dict.set k v d)
  = if PyList.mem k (Dict.keys d) then Dict.keys d else Dict.keys d ++ [k].
Proof. rewrite dict_keys_set. now rewrite dict_mem_keys. Qed.

Lemma keys_append_text h text dc :
  Dict.keys (append_text h text dc)
  = if PyList.mem (domain h) (Dict.keys dc) then Dict.keys dc
    else Dict.keys dc ++ [domain h].
Proof. unfold append_text. apply keys_touch. Qed.

Lemma keys_count_asins h dc :
  Dict.keys (count_asins h dc).2
  = if PyList.mem (domain h) (Dict.keys dc) then Dict.keys dc
    else Dict.keys dc ++ [domain h].
Proof. unfold count_asins. apply keys_touch. Qed.

Lemma keys_keep_capped cap h text dc :
  Dict.keys (keep_capped cap h text dc)
  = if PyList.mem (domain h) (Dict.keys dc) then Dict.keys dc
    else Dict.keys dc ++ [domain h].
Proof.
  unfold keep_capped.
  destruct (count_asins h dc) as [n dc'] eqn:Hc.
  assert (Hdc' : dc' = (count_asins h dc).2) by now rewrite Hc.
  destruct (Z.of_nat n <? cap).
  - rewrite keys_append_text. subst dc'. rewrite keys_count_asins.
    destruct (PyList.mem (domain h) (Dict.keys dc)) eqn:Hm.
    + now rewrite Hm.
    + assert (Hin : PyList.mem (domain h) (Dict.keys dc ++ [domain h]) = true).
      { apply mem_true_iff, in_app_iff. right. now left. }
      now rewrite Hin.
  - subst dc'. apply keys_count_asins.
Qed.

(** With a cap, the domains of the corpus are the domains of the body
    lines, in the order in which the file shows them first. *)
Lemma keys_group_capped cap (bodies : list (tag * string)) :
  Dict.keys (group_bodies (keep_capped cap) bodies [])
  = first_seen (map body_domain bodies).
Proof.
  induction bodies as [|b bodies IH] using rev_ind; [reflexivity|].
  rewrite group_bodies_snoc, keys_keep_capped, map_app. cbn [map].
  rewrite first_seen_snoc. unfold body_domain at 2 3. now rewrite IH.
Qed.

(** Without the domains of interest, they are the other domains of the
    body lines, in the same order. *)
Lemma keys_group_not_in dois (bodies : list (tag * string)) :
  Dict.keys (group_bodies (keep_not_in dois) bodies [])
  = first_seen (List.filter (not_doi dois) (map body_domain bodies)).
Proof.
  induction bodies as [|b bodies IH] using rev_ind; [reflexivity|].
  rewrite group_bodies_snoc, map_app, List.filter_app. cbn [map List.filter].
  unfold keep_not_in at 1. fold (not_doi dois (domain b.1)).
  unfold body_domain at 2 3.
  destruct (not_doi dois (domain b.1)).
  - rewrite keys_append_text, first_seen_snoc. now rewrite IH.
  - now rewrite app_nil_r.
Qed.

Lemma keys_not_in_dois dois (lines : list string) (dc : corpus) :
  read_corpus (keep_not_in dois) lines = Ok dc ->
  forall d, In d (Dict.keys dc) -> PyList.mem d dois = false.
Proof.
  rewrite read_corpus_bodies. intros [= <-] d.
  rewrite keys_group_not_in, In_first_seen, List.filter_In.
  unfold not_doi. intros [_ H]. now destruct (PyList.mem d dois).
Qed.

(** ** The vocabulary *)

Lemma fold_set_enumerate (ks : list string) (v0 : list (string * Z)) :
  NoDup ks ->
  (forall k, In k ks -> ~ In k (Dict.keys v0)) ->
  fold_left (fun v k => Dict.set k (Z.of_nat (length v)) v) ks v0
  = v0 ++ enumerate_from (Z.of_nat (length v0)) ks.
Proof.
  revert v0. induction ks as [|k ks IH]; intros v0 Hnd Hfresh; simpl.
  - now rewrite app_nil_r.
  - apply NoDup_cons in Hnd as [Hk Hnd].
    rewrite dict_set_fresh by (apply dict_get_None_not_in, Hfresh; now left).
    rewrite IH; [|assumption|].
    + rewrite length_app, <- app_assoc. simpl.
      now replace (Z.of_nat (length v0 + 1)) with (Z.of_nat (length v0) + 1) by lia.
    + intros k' Hk'. unfold Dict.keys. rewrite map_app, in_app_iff. simpl.
      intros [H|[<-|[]]].
      * apply (Hfresh k'); [now right | assumption].
      * apply Hk. now apply list_elem_of_In.
Qed.

Lemma fold_set_not_doi dois (ks : list string) (v0 : list (string * Z)) :
  (forall k, In k ks -> PyList.mem k dois = false) ->
  fold_left
    (fun v k => if negb (PyList.mem k dois)
                then Dict.set k (Z.of_nat (length v)) v else v) ks v0
  = fold_left (fun v k => Dict.set k (Z.of_nat (length v)) v) ks v0.
Proof.
  revert v0. induction ks as [|k ks IH]; intros v0 H; simpl; [reflexivity|].
  rewrite (H k) by now left. simpl. apply IH. intros k' Hk'. apply H. now right.
Qed.

Lemma NoDup_keys_not_in dois lines dc :
  read_corpus (keep_not_in dois) lines = Ok dc -> NoDup (Dict.keys dc).
Proof.
  rewrite read_corpus_bodies. intros [= <-].
  rewrite keys_group_not_in. apply NoDup_first_seen.
Qed.

Lemma NoDup_keys_capped cap lines dc :
  read_corpus (keep_capped cap) lines = Ok dc -> NoDup (Dict.keys dc).
Proof.
  rewrite read_corpus_bodies. intros [= <-].
  rewrite keys_group_capped. apply NoDup_first_seen.
Qed.

(** C7 (as amended): the domains of a corpus are those of the body lines
    that the guard keeps, in the order in which the file shows them first.
    For [DOIDataset], when no domain of the corpus is named [[DOI]], the
    vocabulary is the reserved token with 0, then the domains of the corpus
    with the consecutive integers from 1, in that order; for the classes
    with tag embeddings, when no domain is named [[GENERAL]] or [[OTHER]],
    it is the two reserved tokens with 0 and 1, then the domains with the
    consecutive integers from 2. Each family needs the condition on its own
    reserved tokens only. Two files that show the same domains first in
    the same order give the same vocabulary, whatever else they hold, and
    whatever the names of the domains and the cap are. *)
Theorem vocabulary_first_seen :
  (forall (lines : list string) (dc : corpus),
     read_corpus (keep_not_in DOIDataset_dois) lines = Ok dc ->
     Dict.keys dc
     = first_seen (List.filter (not_doi DOIDataset_dois)
                     (map body_domain (body_lines true None lines))) /\
     (~ In "[DOI]" (Dict.keys dc) ->
      DOIDataset_vocab DOIDataset_dois dc
      = ("[DOI]", 0) :: enumerate_from 1 (Dict.keys dc))) /\
  (forall (lines : list string) (cap : Z) (dc : corpus),
     read_corpus (keep_capped cap) lines = Ok dc ->
     Dict.keys dc = first_seen (map body_domain (body_lines true None lines)) /\
     (~ In "[GENERAL]" (Dict.keys dc) ->
      ~ In "[OTHER]" (Dict.keys dc) ->
      TagEmb_vocab dc
      = [("[GENERAL]", 0); ("[OTHER]", 1)] ++ enumerate_from 2 (Dict.keys dc))) /\
  (forall (lines1 lines2 : list string) (dc1 dc2 : corpus),
     read_corpus (keep_not_in DOIDataset_dois) lines1 = Ok dc1 ->
     read_corpus (keep_not_in DOIDataset_dois) lines2 = Ok dc2 ->
     first_seen (List.filter (not_doi DOIDataset_dois)
                   (map body_domain (body_lines true None lines1)))
     = first_seen (List.filter (not_doi DOIDataset_dois)
                     (map body_domain (body_lines true None lines2))) ->
     DOIDataset_vocab DOIDataset_dois dc1 = DOIDataset_vocab DOIDataset_dois dc2) /\
  (forall (lines1 lines2 : list string) (cap1 cap2 : Z) (dc1 dc2 : corpus),
     read_corpus (keep_capped cap1) lines1 = Ok dc1 ->
     read_corpus (keep_capped cap2) lines2 = Ok dc2 ->
     first_seen (map body_domain (body_lines true None lines1))
     = first_seen (map body_domain (body_lines true None lines2)) ->
     TagEmb_vocab dc1 = TagEmb_vocab dc2).
Proof.
  assert (Hkeys : forall lines dc,
             read_corpus (keep_not_in DOIDataset_dois) lines = Ok dc ->
             Dict.keys dc
             = first_seen (List.filter (not_doi DOIDataset_dois)
                             (map body_domain (body_lines true None lines)))).
  { intros lines dc Hdc. rewrite read_corpus_bodies in Hdc. injection Hdc as <-.
    apply keys_group_not_in. }
  assert (Hkeys' : forall lines cap dc,
             read_corpus (keep_capped cap) lines = Ok dc ->
             Dict.keys dc = first_seen (map body_domain (body_lines true None lines))).
  { intros lines cap dc Hdc. rewrite read_corpus_bodies in Hdc. injection Hdc as <-.
    apply keys_group_capped. }
  split; [|split; [|split]].
  - intros lines dc Hdc. split; [now apply Hkeys|]. intros Hdoi.
    pose proof (NoDup_keys_not_in _ _ _ Hdc) as Hnd.
    pose proof (keys_not_in_dois _ _ _ Hdc) as Hout.
    unfold DOIDataset_vocab. rewrite fold_set_not_doi by assumption.
    rewrite fold_set_enumerate; [reflexivity | assumption |].
    intros k Hk [<-|[]]. contradiction.
  - intros lines cap dc Hdc. split; [now apply (Hkeys' lines cap)|]. intros Hgen Hoth.
    pose proof (NoDup_keys_capped _ _ _ Hdc) as Hnd.
    unfold TagEmb_vocab.
    rewrite fold_set_enumerate; [reflexivity | assumption |].
    intros k Hk [<-|[<-|[]]]; contradiction.
  - intros lines1 lines2 dc1 dc2 H1 H2 Hsame.
    unfold DOIDataset_vocab.
    now rewrite (Hkeys _ _ H1), (Hkeys _ _ H2), Hsame.
  - intros lines1 lines2 cap1 cap2 dc1 dc2 H1 H2 Hsame.
    unfold TagEmb_vocab.
    now rewrite (Hkeys' _ _ _ H1), (Hkeys' _ _ _ H2), Hsame.
Qed.

Lemma vocabulary_first_seen_witness :
  (exists dc,
     read_corpus (keep_not_in DOIDataset_dois) lines_OTHER_named = Ok dc /\
     DOIDataset_vocab DOIDataset_dois dc
     = ("[DOI]", 0) :: enumerate_from 1 ["[OTHER]"; "Books"]) /\
  (exists dc,
     read_corpus (keep_capped 50) lines_DOI_named = Ok dc /\
     TagEmb_vocab dc
     = [("[GENERAL]", 0); ("[OTHER]", 1)] ++ enumerate_from 2 ["[DOI]"; "Books"]) /\
  (exists dc1 dc2,
     read_corpus (keep_capped 50) lines_books_music = Ok dc1 /\
     read_corpus (keep_capped 1) lines_two_domains = Ok dc2 /\
     TagEmb_vocab dc1 = TagEmb_vocab dc2).
Proof.
  destruct vocabulary_first_seen as (Hdoi & Htag & _ & Hsame).
  split; [|split].
  - destruct (read_corpus (keep_not_in DOIDataset_dois) lines_OTHER_named)
      as [dc| |] eqn:Hdc; [|vm_compute in Hdc; discriminate..].
    exists dc. split; [reflexivity|].
    assert (Hk : Dict.keys dc = ["[OTHER]"; "Books"]).
    { vm_compute in Hdc. injection Hdc as <-. reflexivity. }
    destruct (Hdoi _ _ Hdc) as (_ & Hvocab). rewrite <- Hk. apply Hvocab.
    rewrite Hk. simpl. intros [H|[H|[]]]; discriminate.
  - destruct (read_corpus (keep_capped 50) lines_DOI_named)
      as [dc| |] eqn:Hdc; [|vm_compute in Hdc; discriminate..].
    exists dc. split; [reflexivity|].
    assert (Hk : Dict.keys dc = ["[DOI]"; "Books"]).
    { vm_compute in Hdc. injection Hdc as <-. reflexivity. }
    destruct (Htag _ _ _ Hdc) as (_ & Hvocab). rewrite <- Hk. apply Hvocab.
    + rewrite Hk. simpl. intros [H|[H|[]]]; discriminate.
    + rewrite Hk. simpl. intros [H|[H|[]]]; discriminate.
  - destruct (read_corpus (keep_capped 50) lines_books_music)
      as [dc1| |] eqn:Hdc1; [|vm_compute in Hdc1; discriminate..].
    destruct (read_corpus (keep_capped 1) lines_two_domains)
      as [dc2| |] eqn:Hdc2; [|vm_compute in Hdc2; discriminate..].
    exists dc1, dc2. split; [reflexivity|]. split; [reflexivity|].
    apply (Hsame _ _ _ _ _ _ Hdc1 Hdc2). vm_compute. reflexivity.
Defined.

(** C7 (as stated) fails: with a domain named [[DOI]], the reserved token
    is numbered 1 and the next domain is numbered 1 as well; with a domain
    named [[OTHER]], the reserved token is numbered 2 and so is the next
    domain. *)
Lemma reserved_name_counterexample :
  exists dc dc',
    read_corpus (keep_not_in DOIDataset_dois) lines_DOI_named = Ok dc /\
    DOIDataset_vocab DOIDataset_dois dc = [("[DOI]", 1); ("Books", 1)] /\
    read_corpus (keep_capped 50) lines_OTHER_named = Ok dc' /\
    TagEmb_vocab dc' = [("[GENERAL]", 0); ("[OTHER]", 2); ("Books", 2)].
Proof.
  destruct (read_corpus (keep_not_in DOIDataset_dois) lines_DOI_named)
    as [dc| |] eqn:Hdc; [|vm_compute in Hdc; discriminate..].
  destruct (read_corpus (keep_capped 50) lines_OTHER_named)
    as [dc'| |] eqn:Hdc'; [|vm_compute in Hdc'; discriminate..].
  exists dc, dc'. vm_compute in Hdc. vm_compute in Hdc'.
  injection Hdc as <-. injection Hdc' as <-.
  repeat split; reflexivity.
Qed.

(** ** The blocks of a stream *)

Section Blocks.
Context {T : Type}.
Variable n : nat.
Hypothesis n_pos : (0 < n)%nat.
Implicit Types l b : list T.

Lemma blocks_of_short l :
  (length l < n)%nat -> blocks_of n l = [].
Proof.
  intros H. unfold blocks_of. now rewrite Nat.div_small.
Qed.

Lemma remainder_short l :
  (length l < n)%nat -> remainder n l = l.
Proof.
  intros H. unfold remainder. now rewrite Nat.div_small.
Qed.

Lemma div_block (k : nat) : ((n + k) / n = S (k / n))%nat.
Proof.
  replace (n + k)%nat with (k + 1 * n)%nat by lia.
  rewrite Nat.div_add by lia. lia.
Qed.

Lemma blocks_of_cons b l :
  length b = n -> blocks_of n (b ++ l) = b :: blocks_of n l.
Proof.
  intros Hb. unfold blocks_of. rewrite length_app, Hb, div_block.
  cbn [seq map]. f_equal.
  - rewrite Nat.mul_0_l, drop_0. rewrite <- Hb. apply take_app_length.
  - rewrite <- seq_shift, map_map. apply map_ext. intros i.
    replace (S i * n)%nat with (length b + i * n)%nat by lia.
    now rewrite drop_app_add.
Qed.

Lemma remainder_cons b l :
  length b = n -> remainder n (b ++ l) = remainder n l.
Proof.
  intros Hb. unfold remainder. rewrite length_app, Hb, div_block.
  replace (S (length l / n) * n)%nat with (length b + length l / n * n)%nat by lia.
  now rewrite drop_app_add.
Qed.

(** A stream is short, or a block followed by a stream. *)
Lemma blocks_ind (P : list T -> Prop) :
  (forall l, (length l < n)%nat -> P l) ->
  (forall b l, length b = n -> P l -> P (b ++ l)) ->
  forall l, P l.
Proof.
  intros Hshort Hcons l.
  remember (length l) as k eqn:Hk. revert l Hk.
  induction k as [k IH] using lt_wf_ind. intros l Hk.
  destruct (Nat.lt_ge_cases (length l) n) as [H|H]; [now apply Hshort|].
  rewrite <- (take_drop n l). apply Hcons.
  - rewrite length_take. lia.
  - apply (IH (length (drop n l))); [|reflexivity].
    rewrite length_drop. lia.
Qed.

Lemma length_remainder l : (length (remainder n l) < n)%nat.
Proof.
  induction l as [l H | b l Hb IH] using blocks_ind.
  - now rewrite remainder_short.
  - now rewrite remainder_cons.
Qed.

Lemma blocks_of_app l r :
  blocks_of n (l ++ r) = blocks_of n l ++ blocks_of n (remainder n l ++ r).
Proof.
  induction l as [l H | b l Hb IH] using blocks_ind.
  - rewrite (blocks_of_short l), (remainder_short l) by assumption.
    reflexivity.
  - rewrite <- app_assoc.
    rewrite (blocks_of_cons b (l ++ r)), (blocks_of_cons b l), remainder_cons
      by assumption.
    rewrite IH. reflexivity.
Qed.

Lemma remainder_app l r :
  remainder n (l ++ r) = remainder n (remainder n l ++ r).
Proof.
  induction l as [l H | b l Hb IH] using blocks_ind.
  - rewrite (remainder_short l) by assumption. reflexivity.
  - rewrite <- app_assoc.
    rewrite (remainder_cons b (l ++ r)), (remainder_cons b l) by assumption.
    exact IH.
Qed.


Lemma concat_blocks_of l :
  concat (blocks_of n l) = take (length l / n * n) l.
Proof.
  induction l as [l H | b l Hb IH] using blocks_ind.
  - rewrite blocks_of_short by assumption. now rewrite Nat.div_small.
  - rewrite blocks_of_cons by assumption. cbn [concat]. rewrite IH.
    rewrite length_app, Hb, div_block.
    replace (S (length l / n) * n)%nat with (length b + length l / n * n)%nat by lia.
    now rewrite take_app_add.
Qed.


Lemma blocks_remainder l : concat (blocks_of n l) ++ remainder n l = l.
Proof. rewrite concat_blocks_of. unfold remainder. apply take_drop. Qed.


End Blocks.

(** ** The chunking loops *)

Lemma bind_ret_r {A : Type} (r : result A) : (r ≫= Ok) = r.
Proof. destruct r; reflexivity. Qed.

Lemma popleft_n_ok {T : Type} (n : nat) (buf : list T) :
  (n <= length buf)%nat -> popleft_n n buf = Ok (take n buf, drop n buf).
Proof.
  revert buf. induction n as [|n IH]; intros buf H; [reflexivity|].
  destruct buf as [|t buf]; [simpl in H; lia|].
  cbn [popleft_n]. rewrite IH by (simpl in H; lia). reflexivity.
Qed.

Lemma for_each_flat_map {A B S : Type} (body : B -> S -> result S)
    (f : A -> list B) (xs : list A) (s : S) :
  for_each body (flat_map f xs) s = for_each (fun x => for_each body (f x)) xs s.
Proof.
  revert s. induction xs as [|x xs IH]; intros s; [reflexivity|].
  cbn [flat_map for_each]. rewrite for_each_app.
  apply bind_ext. exact IH.
Qed.

Section ChunkFacts.
Context {T E : Type}.
Variable tokenize : string -> list T.
Variable emit : string -> list T -> result E.
Variable block_size : Z.
Variable fuel : nat.
Hypothesis block_size_pos : 0 < block_size.

Local Abbreviation n := (Z.to_nat block_size).

Lemma block_nat_pos : (0 < n)%nat.
Proof. lia. Qed.

Lemma emit_all_app (xs ys : list (string * list T)) (exs : list E) :
  emit_all emit (xs ++ ys) exs = (emit_all emit xs exs ≫= emit_all emit ys).
Proof.
  revert exs. induction xs as [|[d b] xs IH]; intros exs; [reflexivity|].
  cbn [app emit_all]. rewrite bind_assoc. apply bind_ext. intros e. apply IH.
Qed.

Lemma emit_all_flat_map {A : Type} (h : A -> list (string * list T))
    (xs : list A) (exs : list E) :
  for_each (fun x => emit_all emit (h x)) xs exs = emit_all emit (flat_map h xs) exs.
Proof.
  revert exs. induction xs as [|x xs IH]; intros exs; [reflexivity|].
  cbn [for_each flat_map]. rewrite emit_all_app. apply bind_ext. exact IH.
Qed.

Lemma blocks_of_step (l : list T) :
  (n <= length l)%nat -> blocks_of n l = take n l :: blocks_of n (drop n l).
Proof.
  intros H. rewrite <- (take_drop n l) at 1.
  apply (blocks_of_cons n block_nat_pos). rewrite length_take. lia.
Qed.

Lemma remainder_step (l : list T) :
  (n <= length l)%nat -> remainder n l = remainder n (drop n l).
Proof.
  intros H. rewrite <- (take_drop n l) at 1.
  apply (remainder_cons n block_nat_pos). rewrite length_take. lia.
Qed.

(** The [while] loop appends the examples of the blocks of the buffer
    and leaves what follows the last block. *)
Lemma drain_blocks (k : nat) (domain : string) (st : chunker T E) :
  (length (buffer st) < k)%nat ->
  drain emit block_size k domain st
  = (exs ← emit_all emit (map (pair domain) (blocks_of n (buffer st))) (examples st);
     Ok {| buffer := remainder n (buffer st); examples := exs;
           tokenize_calls := tokenize_calls st |}).
Proof.
  revert st. induction k as [|k IH]; intros st Hk; [lia|].
  cbn [drain].
  destruct (Z.leb_spec block_size (Z.of_nat (length (buffer st)))) as [Hle|Hlt].
  - assert (Hn : (n <= length (buffer st))%nat) by lia.
    rewrite popleft_n_ok by assumption. rewrite bind_Ok.
    rewrite blocks_of_step, remainder_step by assumption.
    cbn [map emit_all]. rewrite bind_assoc. apply bind_ext. intros e.
    rewrite IH by (cbn [buffer]; rewrite length_drop; pose proof block_nat_pos; lia).
    reflexivity.
  - assert (Hn : (length (buffer st) < n)%nat) by lia.
    rewrite blocks_of_short, remainder_short by assumption.
    destruct st. reflexivity.
Qed.

Lemma length_remainder_app (l r : list T) :
  (length (remainder n l ++ r) <= length (l ++ r))%nat.
Proof.
  rewrite !length_app. unfold remainder. rewrite length_drop. lia.
Qed.

Lemma chunk_text_unfold (domain text : string) (st : chunker T E) :
  chunk_text tokenize emit block_size fuel domain text st
  = drain emit block_size fuel domain
      {| buffer := buffer st ++ tokenize text; examples := examples st;
         tokenize_calls := S (tokenize_calls st) |}.
Proof. reflexivity. Qed.

(** The texts of a group, one after the other. *)
Lemma chunk_texts_blocks (domain : string) (texts : list string)
    (st : chunker T E) :
  (length (buffer st) < n)%nat ->
  (length (buffer st ++ flat_map tokenize texts) < fuel)%nat ->
  for_each (chunk_text tokenize emit block_size fuel domain) texts st
  = (exs ← emit_all emit
             (map (pair domain)
                (blocks_of n (buffer st ++ flat_map tokenize texts)))
             (examples st);
     Ok {| buffer := remainder n (buffer st ++ flat_map tokenize texts);
           examples := exs;
           tokenize_calls := tokenize_calls st + length texts |}).
Proof.
  revert st. induction texts as [|text texts IH]; intros st Hbuf Hfuel.
  - cbn [flat_map for_each length]. rewrite app_nil_r.
    rewrite blocks_of_short, remainder_short by assumption.
    destruct st. cbn. now rewrite Nat.add_0_r.
  - cbn [flat_map for_each]. rewrite chunk_text_unfold.
    cbn [flat_map] in Hfuel. rewrite app_assoc in Hfuel.
    rewrite drain_blocks
      by (cbn [buffer]; rewrite length_app in Hfuel; lia).
    cbn [buffer examples tokenize_calls].
    rewrite (app_assoc (buffer st)).
    rewrite (blocks_of_app n block_nat_pos (buffer st ++ tokenize text)
               (flat_map tokenize texts)).
    rewrite (remainder_app n block_nat_pos (buffer st ++ tokenize text)
               (flat_map tokenize texts)).
    rewrite map_app, emit_all_app, !bind_assoc. apply bind_ext. intros exs.
    rewrite bind_Ok. rewrite IH.
    + cbn [buffer examples tokenize_calls length].
      apply bind_ext. intros exs'. do 2 f_equal. lia.
    + apply (length_remainder n block_nat_pos).
    + cbn [buffer]. pose proof (length_remainder_app
                                  (buffer st ++ tokenize text)
                                  (flat_map tokenize texts)). lia.
Qed.

Lemma flat_map_group_texts (asins : texts_of_asin) :
  flat_map tokenize (group_texts asins) = group_stream tokenize asins.
Proof.
  unfold group_texts, group_stream.
  induction asins as [|a asins IH]; [reflexivity|].
  cbn [flat_map]. rewrite flat_map_app. now rewrite IH.
Qed.

(** One domain and rating: a new buffer, then the texts of its
    identifiers. *)
Lemma chunk_rating_blocks (domain : string) (entry : string * texts_of_asin)
    (st : chunker T E) :
  (length (group_stream tokenize (snd entry)) < fuel)%nat ->
  chunk_rating tokenize emit block_size fuel domain entry st
  = (exs ← emit_all emit
             (map (pair domain) (blocks_of n (group_stream tokenize (snd entry))))
             (examples st);
     Ok {| buffer := remainder n (group_stream tokenize (snd entry));
           examples := exs;
           tokenize_calls := tokenize_calls st + length (group_texts (snd entry)) |}).
Proof.
  intros Hfuel. unfold chunk_rating.
  change (for_each (chunk_asin tokenize emit block_size fuel domain) (snd entry))
    with (for_each (fun x => for_each (chunk_text tokenize emit block_size fuel domain)
                               (snd x)) (snd entry)).
  rewrite <- (for_each_flat_map _ snd).
  fold (group_texts (snd entry)).
  rewrite chunk_texts_blocks; cbn [buffer examples tokenize_calls app].
  - now rewrite flat_map_group_texts.
  - apply block_nat_pos.
  - now rewrite flat_map_group_texts.
Qed.

(** The examples after a loop whose turns append examples. *)
Lemma for_each_examples {A : Type}
    (body : A -> chunker T E -> result (chunker T E))
    (g : A -> list E -> result (list E)) (xs : list A) :
  (forall x st, In x xs -> (body x st ≫= fun s => Ok (examples s)) = g x (examples st)) ->
  forall st,
    (for_each body xs st ≫= fun s => Ok (examples s)) = for_each g xs (examples st).
Proof.
  induction xs as [|x xs IH]; intros H st; [reflexivity|].
  cbn [for_each]. rewrite bind_assoc.
  rewrite <- (H x st) by now left. rewrite bind_assoc.
  apply bind_ext. intros s. rewrite bind_Ok. apply IH.
  intros x' st' Hx'. apply H. now right.
Qed.

Lemma chunk_domain_examples (entry : string * asins_of_rating) (st : chunker T E) :
  (forall r, In r (snd entry) -> (length (group_stream tokenize (snd r)) < fuel)%nat) ->
  (chunk_domain tokenize emit block_size fuel entry st ≫= fun s => Ok (examples s))
  = emit_all emit
      (flat_map (fun r => map (pair (fst entry))
                            (blocks_of n (group_stream tokenize (snd r))))
         (snd entry))
      (examples st).
Proof.
  intros Hfuel. unfold chunk_domain.
  rewrite <- emit_all_flat_map. apply for_each_examples.
  intros r st' Hr. rewrite chunk_rating_blocks by now apply Hfuel.
  rewrite bind_assoc. cbn. apply bind_ret_r.
Qed.

(** The examples of a corpus are those of the blocks of its groups. *)
Lemma chunk_corpus_examples (dc : corpus) :
  Forall (fun s => (length s < fuel)%nat) (corpus_streams tokenize dc) ->
  (chunk_corpus tokenize emit block_size fuel dc ≫= fun s => Ok (examples s))
  = emit_all emit (corpus_blocks tokenize n dc) [].
Proof.
  intros Hfuel. unfold chunk_corpus, corpus_blocks.
  rewrite <- emit_all_flat_map.
  rewrite (for_each_examples _
             (fun d => emit_all emit
                         (flat_map
                            (fun r => map (pair (fst d))
                                        (blocks_of n (group_stream tokenize (snd r))))
                            (snd d)))); [reflexivity|].
  intros d st Hd. apply chunk_domain_examples.
  intros r Hr. rewrite Forall_forall in Hfuel. apply Hfuel, list_elem_of_In.
  unfold corpus_streams. apply in_flat_map. exists d. split; [assumption|].
  apply in_map_iff. exists r. split; [reflexivity | assumption].
Qed.

End ChunkFacts.

Lemma emit_all_total {T E : Type} (emit : string -> list T -> result E)
    (f : string -> list T -> E) (blocks : list (string * list T)) (exs : list E) :
  (forall d b, In (d, b) blocks -> emit d b = Ok (f d b)) ->
  emit_all emit blocks exs = Ok (exs ++ map (fun p => f p.1 p.2) blocks).
Proof.
  revert exs. induction blocks as [|[d b] blocks IH]; intros exs H.
  - cbn. now rewrite app_nil_r.
  - cbn [emit_all map]. rewrite (H d b) by now left. rewrite bind_Ok.
    rewrite IH by (intros d' b' Hin; apply H; now right).
    now rewrite <- app_assoc.
Qed.




Lemma raw_examples {T : Type} (blocks : list (string * list T)) :
  emit_all emit_raw blocks [] = Ok blocks.
Proof.
  rewrite (emit_all_total _ pair) by reflexivity. cbn [app]. f_equal.
  rewrite <- (map_id blocks) at 2. apply map_ext. now intros [d b].
Qed.

(** C2: the blocks of a corpus are the blocks of the stream of each
    domain and rating, one group after the other: every block is a window
    of [block_size] tokens in the stream of one domain and rating, which
    runs over all the identifiers of that group. The rows of any class are
    the examples of these blocks. *)
Theorem blocks_within_groups {T E : Type} (tokenize : string -> list T)
    (emit : string -> list T -> result E) (block_size : Z) (fuel : nat)
    (dc : corpus) :
  0 < block_size ->
  Forall (fun s => (length s < fuel)%nat) (corpus_streams tokenize dc) ->
  let n := Z.to_nat block_size in
  (chunk_corpus tokenize emit block_size fuel dc ≫= fun s => Ok (examples s))
  = emit_all emit (corpus_blocks tokenize n dc) [] /\
  exists st,
    chunk_corpus tokenize emit_raw block_size fuel dc = Ok st /\
    examples st = corpus_blocks tokenize n dc /\
    forall d b, In (d, b) (examples st) ->
      exists ratings r asins i,
        In (d, ratings) dc /\ In (r, asins) ratings /\
        (i < length (group_stream tokenize asins) / n)%nat /\
        b = take n (drop (i * n) (group_stream tokenize asins)).
Proof.
  intros Hpos Hfuel n. split; [now apply chunk_corpus_examples|].
  pose proof (chunk_corpus_examples tokenize emit_raw block_size fuel Hpos dc Hfuel)
    as Hraw.
  rewrite raw_examples in Hraw.
  destruct (chunk_corpus tokenize emit_raw block_size fuel dc) as [st| |];
    [|discriminate..].
  cbn in Hraw. injection Hraw as Hraw.
  exists st. split; [reflexivity|]. split; [exact Hraw|].
  intros d b Hin. rewrite Hraw in Hin. unfold corpus_blocks in Hin.
  apply in_flat_map in Hin as ([d' ratings] & Hd & Hin).
  apply in_flat_map in Hin as ([r asins] & Hr & Hin).
  apply in_map_iff in Hin as (b' & [= <- <-] & Hb).
  unfold blocks_of in Hb. apply in_map_iff in Hb as (i & <- & Hi).
  apply in_seq in Hi.
  exists ratings, r, asins, i. cbn [fst snd] in *.
  split; [assumption|]. split; [assumption|]. split; [|reflexivity].
  exact (proj2 Hi).
Qed.

Lemma blocks_within_groups_witness :
  exists st : chunker string (string * list string),
    chunk_corpus Str.split emit_raw 2 10 corpus_two_groups = Ok st /\
    examples st = corpus_blocks Str.split 2 corpus_two_groups /\
    forall d b, In (d, b) (examples st) ->
      exists ratings r asins i,
        In (d, ratings) corpus_two_groups /\ In (r, asins) ratings /\
        (i < length (group_stream Str.split asins) / 2)%nat /\
        b = take 2 (drop (i * 2) (group_stream Str.split asins)).
Proof.
  apply (blocks_within_groups Str.split (@emit_raw string) 2 10 corpus_two_groups).
  - lia.
  - vm_compute. repeat constructor.
Defined.

(** The tokens [c] and [d] of two identifiers of one group share a block;
    the tokens [e] and [f] of two groups do not, and [e] and [h] are in no
    block. *)
Example two_groups_blocks :
  corpus_blocks Str.split 2 corpus_two_groups
  = [("Books", ["a"; "b"]); ("Books", ["c"; "d"]); ("Books", ["f"; "g"])].
Proof. reflexivity. Qed.

(** With a block size that is not positive the [while] loop does not
    stop. *)
Lemma drain_diverges {T E : Type} (emit : string -> list T -> result E)
    (block_size : Z) (fuel : nat) (domain : string) (st : chunker T E) :
  block_size <= 0 ->
  (forall d b, exists e, emit d b = Ok e) ->
  drain emit block_size fuel domain st = OutOfFuel.
Proof.
  intros Hbs Hemit. revert st. induction fuel as [|fuel IH]; intros st; cbn [drain].
  - destruct (Z.leb_spec block_size (Z.of_nat (length (buffer st)))); [reflexivity | lia].
  - destruct (Z.leb_spec block_size (Z.of_nat (length (buffer st)))); [|lia].
    replace (Z.to_nat block_size) with 0%nat by lia. cbn [popleft_n].
    rewrite bind_Ok. destruct (Hemit domain []) as [e ->]. rewrite bind_Ok. apply IH.
Qed.

(** ** The segment of a block of [DOIDataset] *)


Lemma corpus_blocks_domain {T : Type} (tokenize : string -> list T) (n : nat)
    (dc : corpus) (d : string) (b : list T) :
  In (d, b) (corpus_blocks tokenize n dc) -> In d (Dict.keys dc).
Proof.
  unfold corpus_blocks. intros Hin.
  apply in_flat_map in Hin as ([d' ratings] & Hd & Hin).
  apply in_flat_map in Hin as (r & Hr & Hin).
  apply in_map_iff in Hin as (b' & [= <- <-] & _).
  unfold Dict.keys. apply in_map_iff. now exists (d', ratings).
Qed.

Lemma DOIDataset_segment_own dois domain_to_id d :
  PyList.mem d dois = false ->
  DOIDataset_segment dois domain_to_id d = own_segment domain_to_id d.
Proof. intros H. unfold DOIDataset_segment. now rewrite H. Qed.

Lemma dict_length_set {V : Type} (k : string) (v : V) (d : list (string * V)) :
  (length d <= length (Dict.set k v d))%nat.
Proof.
  induction d as [|[k' v'] d IH]; cbn [Dict.set length]; [lia|].
  destruct (String.eqb k k'); cbn [length]; lia.
Qed.

(** The numbers that the vocabulary loop gives are at least the length of
    the dictionary it starts from. *)
Lemma fold_set_keeps (dois ks : list string) (v0 : list (string * Z)) (k : string) :
  (1 <= length v0)%nat ->
  (exists i, Dict.get k v0 = Some i /\ 1 <= i) ->
  exists i,
    Dict.get k
      (fold_left (fun v k => if negb (PyList.mem k dois)
                             then Dict.set k (Z.of_nat (length v)) v else v) ks v0)
    = Some i /\ 1 <= i.
Proof.
  revert v0. induction ks as [|k' ks IH]; intros v0 Hlen Hk; [exact Hk|].
  cbn [fold_left]. apply IH.
  - destruct (negb (PyList.mem k' dois)); [|assumption].
    pose proof (dict_length_set k' (Z.of_nat (length v0)) v0). lia.
  - destruct (negb (PyList.mem k' dois)); [|assumption].
    destruct (String.eqb_spec k' k) as [->|Hne].
    + exists (Z.of_nat (length v0)). rewrite dict_get_set_eq. split; [reflexivity | lia].
    + now rewrite dict_get_set_ne.
Qed.

Lemma fold_set_positive (dois ks : list string) (v0 : list (string * Z)) (d : string) :
  (1 <= length v0)%nat ->
  In d ks -> PyList.mem d dois = false ->
  exists i,
    Dict.get d
      (fold_left (fun v k => if negb (PyList.mem k dois)
                             then Dict.set k (Z.of_nat (length v)) v else v) ks v0)
    = Some i /\ 1 <= i.
Proof.
  revert v0. induction ks as [|k ks IH]; intros v0 Hlen Hin Hd; [destruct Hin|].
  cbn [fold_left]. destruct Hin as [->|Hin].
  - rewrite Hd. cbn [negb]. apply fold_set_keeps.
    + pose proof (dict_length_set d (Z.of_nat (length v0)) v0). lia.
    + exists (Z.of_nat (length v0)). rewrite dict_get_set_eq. split; [reflexivity | lia].
  - apply IH; [|assumption..].
    destruct (negb (PyList.mem k dois)); [|assumption].
    pose proof (dict_length_set k (Z.of_nat (length v0)) v0). lia.
Qed.

Lemma DOIDataset_vocab_positive dois (dc : corpus) (d : string) :
  In d (Dict.keys dc) -> PyList.mem d dois = false ->
  exists i, Dict.get d (DOIDataset_vocab dois dc) = Some i /\ 1 <= i.
Proof.
  intros Hin Hd. unfold DOIDataset_vocab.
  apply fold_set_positive; [cbn; lia | assumption..].
Qed.




(** ** Running the constructors *)

Lemma run_bind {A B : Type} (m : io A) (k : A -> io B) (fs : disk) :
  run (m ≫= k) fs
  = match run m fs with
    | (Ok a, fs') => run (k a) fs'
    | (Raise e, fs') => (Raise e, fs')
    | (OutOfFuel, fs') => (OutOfFuel, fs')
    end.
Proof. reflexivity. Qed.

Lemma run_lift {A : Type} (r : result A) (fs : disk) : run (lift r) fs = (r, fs).
Proof. reflexivity. Qed.

Lemma run_mret {A : Type} (a : A) (fs : disk) : run (mret a) fs = (Ok a, fs).
Proof. reflexivity. Qed.

(** The assertion that begins every constructor. *)
Lemma run_asserted {A : Type} (p : string) (m : io A) (fs : disk) :
  run (is_file ← Os.isfile p; assert_ is_file;; m) fs
  = if Os.is_file fs p then run m fs else (Raise AssertionError, fs).
Proof.
  rewrite run_bind. cbn [Os.isfile run]. rewrite run_bind. unfold assert_.
  rewrite run_lift. now destruct (Os.is_file fs p).
Qed.

Lemma split_on_go_nonempty (sep : ascii) (tok s : string) :
  Str.split_on_go sep tok s <> [].
Proof.
  revert tok. induction s as [|c s IH]; intros tok; cbn [Str.split_on_go].
  - discriminate.
  - destruct (Ascii.eqb c sep); [discriminate | apply IH].
Qed.

(** [model_type.split("-")[0]] raises nothing. *)
Lemma run_model_type {A : Type} (model_type : string) (m : io A) (fs : disk) :
  run (_ ← lift (PyList.index (Str.split_on "-" model_type) 0); m) fs = run m fs.
Proof.
  rewrite run_bind, run_lift. unfold Str.split_on.
  destruct (Str.split_on_go "-" EmptyString model_type) as [|p l] eqn:H.
  - now apply split_on_go_nonempty in H.
  - now rewrite index_first.
Qed.

Lemma load_or_hit (cache : string) (build : io dataset) (fs : disk) (a : Np.array) :
  fs !! cache = Some (NpyFile a) ->
  run (load_or cache build) fs
  = (Ok {| ds_examples := a; ds_tokenize_calls := 0 |}, fs).
Proof.
  intros H. unfold load_or. rewrite run_bind. cbn [Os.exists_ run]. rewrite H.
  rewrite run_bind. cbn [Os.np_load run]. rewrite H. reflexivity.
Qed.

Lemma load_or_miss (cache : string) (build : io dataset) (fs : disk) :
  fs !! cache = None -> run (load_or cache build) fs = run build fs.
Proof.
  intros H. unfold load_or. rewrite run_bind. cbn [Os.exists_ run]. now rewrite H.
Qed.

Lemma load_or_Ok (cache : string) (build : io dataset) (fs fs1 : disk) (ds : dataset) :
  run (load_or cache build) fs = (Ok ds, fs1) ->
  (fs !! cache = Some (NpyFile (ds_examples ds)) /\ fs1 = fs /\ ds_tokenize_calls ds = 0%nat) \/
  (fs !! cache = None /\ run build fs = (Ok ds, fs1)).
Proof.
  unfold load_or. rewrite run_bind. cbn [Os.exists_ run].
  destruct (fs !! cache) as [f|] eqn:Hc.
  - rewrite run_bind. cbn [Os.np_load run]. rewrite Hc.
    destruct f; try discriminate.
    rewrite run_mret. intros [= <- <-]. left. auto.
  - intros H. right. auto.
Qed.

Lemma is_file_insert (fs : disk) (p q : string) (f : file) :
  f <> Directory -> Os.is_file fs q = true -> Os.is_file (<[p := f]> fs) q = true.
Proof.
  intros Hf. unfold Os.is_file. destruct (decide (p = q)) as [->|Hne].
  - rewrite lookup_insert_eq. now destruct f.
  - now rewrite lookup_insert_ne.
Qed.

(** ** The two classes that only load *)

(** C10: when its cache file is absent, the constructor of
    [LaptopTSDataset] and of [RestTSDataset] raises (the assertion on the
    source file, or else [Exception]), and leaves the files as they are:
    no cache file appears. The two constructors are [TSDataset_init] with
    their prefixes. *)
Theorem TSDataset_without_cache (prefix model_type file_path : string)
    (block_size : Z) (fs : disk) :
  fs !! cache_path prefix file_path block_size = None ->
  run (TSDataset_init prefix model_type file_path block_size) fs
  = (Raise (if Os.is_file fs file_path then Exception else AssertionError), fs) /\
  (run (TSDataset_init prefix model_type file_path block_size) fs).2
    !! cache_path prefix file_path block_size = None /\
  LaptopTSDataset_init = TSDataset_init "cached_doimerged_laptop_" /\
  RestTSDataset_init = TSDataset_init "cached_doimerged_restaurant_".
Proof.
  intros Hmiss.
  assert (Hrun : run (TSDataset_init prefix model_type file_path block_size) fs
                 = (Raise (if Os.is_file fs file_path then Exception
                           else AssertionError), fs)).
  { unfold TSDataset_init. rewrite run_asserted.
    destruct (Os.is_file fs file_path); [|reflexivity].
    rewrite run_model_type, load_or_miss by assumption. reflexivity. }
  split; [exact Hrun|]. rewrite Hrun. split; [exact Hmiss|]. split; reflexivity.
Qed.

Lemma TSDataset_without_cache_witness :
  run (TSDataset_init "cached_doimerged_laptop_" "bert-base" "data/train.txt" 2)
    disk_train_dev
  = (Raise (if Os.is_file disk_train_dev "data/train.txt" then Exception
            else AssertionError), disk_train_dev).
Proof.
  apply (TSDataset_without_cache "cached_doimerged_laptop_" "bert-base"
           "data/train.txt" 2 disk_train_dev).
  vm_compute. reflexivity.
Defined.

(** ** What a construction that succeeds has done *)

Section InitFacts.
Variable tk : Tokenizer.
Variable fuel : nat.

(** Without a cache file, [DOIDataset] has read a corpus, taken a
    vocabulary, made the rows and saved their array. *)
Lemma DOIDataset_build_Ok (file_path : string) (block_size : Z)
    (fs fs1 : disk) (ds : dataset) :
  run (DOIDataset_build tk fuel file_path block_size) fs = (Ok ds, fs1) ->
  exists lines dc domain_to_id st fs_mid,
    fs !! file_path = Some (TextFile lines) /\
    read_corpus (keep_not_in DOIDataset_dois) lines = Ok dc /\
    chunk_corpus (tokenize tk)
      (DOIDataset_example tk DOIDataset_dois domain_to_id) block_size fuel dc
    = Ok st /\
    Np.concatenate (examples st) = Ok (ds_examples ds) /\
    ds_tokenize_calls ds = tokenize_calls st /\
    fs1 = <[cache_path "cached_doimerged_" file_path block_size
            := NpyFile (ds_examples ds)]> fs_mid /\
    (forall q, Os.is_file fs q = true -> Os.is_file fs_mid q = true).
Proof.
  unfold DOIDataset_build. rewrite run_bind. cbn [Os.read_lines run].
  destruct (fs !! file_path) as [[lines| | |]|] eqn:Hsrc; try discriminate.
  rewrite run_bind, run_lift.
  destruct (read_corpus (keep_not_in DOIDataset_dois) lines) as [dc| |] eqn:Hdc;
    try discriminate.
  rewrite run_bind.
  set (vp := Os.join (Os.split file_path).1 "doi_domain.json").
  intros Hrun.
  assert (Hvocab : exists domain_to_id fs_mid,
             run (if Str.contains "train" file_path
                  then Os.json_dump (DOIDataset_vocab DOIDataset_dois dc) vp;;
                       mret (DOIDataset_vocab DOIDataset_dois dc)
                  else Os.json_load vp) fs = (Ok domain_to_id, fs_mid) /\
             (forall q, Os.is_file fs q = true -> Os.is_file fs_mid q = true)).
  { destruct (Str.contains "train" file_path).
    - rewrite run_bind in Hrun |- *. cbn [Os.json_dump run] in Hrun |- *.
      destruct (fs !! vp) as [[| | |]|]; try discriminate Hrun;
        (eexists _, _; split; [reflexivity|];
         intros q Hq; apply is_file_insert; [discriminate | assumption]).
    - cbn [Os.json_load run] in Hrun |- *.
      destruct (fs !! vp) as [[|obj| |]|]; try discriminate Hrun.
      eexists _, _. split; [reflexivity | auto]. }
  destruct Hvocab as (domain_to_id & fs_mid & Hv & Hfiles).
  rewrite Hv in Hrun. rewrite run_bind, run_lift in Hrun.
  destruct (chunk_corpus (tokenize tk)
              (DOIDataset_example tk DOIDataset_dois domain_to_id)
              block_size fuel dc) as [st| |] eqn:Hst; try discriminate.
  rewrite run_bind, run_lift in Hrun.
  destruct (Np.concatenate (examples st)) as [a| |] eqn:Ha; try discriminate.
  rewrite run_bind in Hrun. cbn [Os.np_save run] in Hrun.
  exists lines, dc, domain_to_id, st, fs_mid.
  destruct (fs_mid !! cache_path "cached_doimerged_" file_path block_size)
    as [[| | |]|]; try discriminate Hrun;
    rewrite run_mret in Hrun; injection Hrun as <- <-; cbn [ds_examples ds_tokenize_calls];
    repeat split; auto.
Qed.

(** A construction of [DOIDataset] that succeeds leaves its array in the
    cache file, and the source file is still a file. *)
Lemma DOIDataset_init_Ok (model_type file_path : string) (block_size : Z)
    (fs fs1 : disk) (ds : dataset) :
  run (DOIDataset_init tk fuel model_type file_path block_size) fs = (Ok ds, fs1) ->
  Os.is_file fs file_path = true /\
  Os.is_file fs1 file_path = true /\
  fs1 !! cache_path "cached_doimerged_" file_path block_size
  = Some (NpyFile (ds_examples ds)) /\
  ((fs !! cache_path "cached_doimerged_" file_path block_size
    = Some (NpyFile (ds_examples ds)) /\ fs1 = fs) \/
   (fs !! cache_path "cached_doimerged_" file_path block_size = None /\
    run (DOIDataset_build tk fuel file_path block_size) fs = (Ok ds, fs1))).
Proof.
  unfold DOIDataset_init. rewrite run_asserted.
  destruct (Os.is_file fs file_path) eqn:Hfile; [|discriminate].
  rewrite run_model_type.
  intros Hrun. split; [reflexivity|].
  apply load_or_Ok in Hrun as [(Hhit & -> & _) | (Hmiss & Hbuild)].
  - split; [assumption|]. split; [assumption|]. now left.
  - pose proof Hbuild as Hb.
    apply DOIDataset_build_Ok in Hb
      as (lines & dc & d2i & st & fs_mid & _ & _ & _ & _ & _ & -> & Hfiles).
    split; [|split].
    + apply is_file_insert; [discriminate | now apply Hfiles].
    + apply lookup_insert_eq.
    + now right.
Qed.

End InitFacts.

Section TextInitFacts.
Variable tk : Tokenizer.
Variable fuel : nat.

Lemma TextDataset_init_Ok (model_type file_path : string) (block_size : Z)
    (fs fs1 : disk) (ds : dataset) :
  run (TextDataset_init tk fuel model_type file_path block_size) fs = (Ok ds, fs1) ->
  exists prefix,
    PyList.index (Str.split_on "-" model_type) 0 = Ok prefix /\
    Os.is_file fs file_path = true /\
    Os.is_file fs1 file_path = true /\
    fs1 !! cache_path (prefix +:+ "_cached_lm_") file_path block_size
    = Some (NpyFile (ds_examples ds)).
Proof.
  unfold TextDataset_init. rewrite run_asserted.
  destruct (Os.is_file fs file_path) eqn:Hfile; [|discriminate].
  rewrite run_bind, run_lift.
  destruct (PyList.index (Str.split_on "-" model_type) 0) as [prefix| |];
    try discriminate.
  intros Hrun. exists prefix. split; [reflexivity|]. split; [reflexivity|].
  apply load_or_Ok in Hrun as [(Hhit & -> & _) | (Hmiss & Hbuild)].
  - split; assumption.
  - rewrite run_bind in Hbuild. cbn [Os.read_lines run] in Hbuild.
    destruct (fs !! file_path) as [[lines| | |]|]; try discriminate.
    rewrite run_bind, run_lift in Hbuild.
    destruct (for_each (TextDataset_line tk fuel block_size) lines
                {| buffer := []; examples := []; tokenize_calls := 0 |})
      as [st| |]; try discriminate.
    rewrite run_bind, run_lift in Hbuild.
    destruct (Np.concatenate (examples st)) as [a| |]; try discriminate.
    rewrite run_bind in Hbuild. cbn [Os.np_save run] in Hbuild.
    destruct (fs !! cache_path (prefix +:+ "_cached_lm_") file_path block_size)
      as [[| | |]|]; try discriminate Hbuild;
      rewrite run_mret in Hbuild; injection Hbuild as <- <-;
      cbn [ds_examples]; (split; [apply is_file_insert; [discriminate | assumption]
                                 | apply lookup_insert_eq]).
Qed.

End TextInitFacts.

Lemma DOIDataset_init_hit (tk : Tokenizer) (fuel : nat)
    (model_type file_path : string) (block_size : Z) (fs : disk) (a : Np.array) :
  Os.is_file fs file_path = true ->
  fs !! cache_path "cached_doimerged_" file_path block_size = Some (NpyFile a) ->
  run (DOIDataset_init tk fuel model_type file_path block_size) fs
  = (Ok {| ds_examples := a; ds_tokenize_calls := 0 |}, fs).
Proof.
  intros Hfile Hhit. unfold DOIDataset_init.
  rewrite run_asserted, Hfile, run_model_type.
  now apply load_or_hit.
Qed.

Lemma TextDataset_init_hit (tk : Tokenizer) (fuel : nat)
    (model_type file_path prefix : string) (block_size : Z) (fs : disk)
    (a : Np.array) :
  Os.is_file fs file_path = true ->
  PyList.index (Str.split_on "-" model_type) 0 = Ok prefix ->
  fs !! cache_path (prefix +:+ "_cached_lm_") file_path block_size = Some (NpyFile a) ->
  run (TextDataset_init tk fuel model_type file_path block_size) fs
  = (Ok {| ds_examples := a; ds_tokenize_calls := 0 |}, fs).
Proof.
  intros Hfile Hprefix Hhit. unfold TextDataset_init.
  rewrite run_asserted, Hfile, run_bind, run_lift, Hprefix.
  now apply load_or_hit.
Qed.

(** C6: when the cache file holds an array, the constructor returns that
    array as it is, with any tokenizer and whatever the source file holds,
    calling the tokenizer at no time and leaving the files as they are; so
    after a construction that succeeded, a second construction (the source
    still a file, the cache file not removed) returns the same array and
    calls the tokenizer at no time. For [DOIDataset] and [TextDataset]. *)
Theorem cache_idempotence (tk : Tokenizer) (fuel : nat)
    (model_type file_path : string) (block_size : Z)
    (fs fs1 fs' fs1' : disk) (ds ds' : dataset) :
  run (DOIDataset_init tk fuel model_type file_path block_size) fs = (Ok ds, fs1) ->
  run (TextDataset_init tk fuel model_type file_path block_size) fs' = (Ok ds', fs1') ->
  (forall (tk2 : Tokenizer) (fuel2 : nat) (fs2 : disk) (a : Np.array),
     Os.is_file fs2 file_path = true ->
     fs2 !! cache_path "cached_doimerged_" file_path block_size = Some (NpyFile a) ->
     run (DOIDataset_init tk2 fuel2 model_type file_path block_size) fs2
     = (Ok {| ds_examples := a; ds_tokenize_calls := 0 |}, fs2)) /\
  run (DOIDataset_init tk fuel model_type file_path block_size) fs1
  = (Ok {| ds_examples := ds_examples ds; ds_tokenize_calls := 0 |}, fs1) /\
  (exists prefix,
     PyList.index (Str.split_on "-" model_type) 0 = Ok prefix /\
     forall (tk2 : Tokenizer) (fuel2 : nat) (fs2 : disk) (a : Np.array),
       Os.is_file fs2 file_path = true ->
       fs2 !! cache_path (prefix +:+ "_cached_lm_") file_path block_size
       = Some (NpyFile a) ->
       run (TextDataset_init tk2 fuel2 model_type file_path block_size) fs2
       = (Ok {| ds_examples := a; ds_tokenize_calls := 0 |}, fs2)) /\
  run (TextDataset_init tk fuel model_type file_path block_size) fs1'
  = (Ok {| ds_examples := ds_examples ds'; ds_tokenize_calls := 0 |}, fs1').
Proof.
  intros Hdoi Htext.
  apply DOIDataset_init_Ok in Hdoi as (_ & Hfile1 & Hcache1 & _).
  apply TextDataset_init_Ok in Htext as (prefix & Hprefix & _ & Hfile1' & Hcache1').
  split; [|split; [|split]].
  - intros tk2 fuel2 fs2 a. apply DOIDataset_init_hit.
  - now apply DOIDataset_init_hit.
  - exists prefix. split; [assumption|].
    intros tk2 fuel2 fs2 a Hfile. now apply TextDataset_init_hit.
  - now apply (TextDataset_init_hit tk fuel model_type file_path prefix).
Qed.

Lemma cache_idempotence_witness :
  run (DOIDataset_init word_tokenizer 10 "bert-base" "data/train.txt" 2)
    (run (DOIDataset_init word_tokenizer 10 "bert-base" "data/train.txt" 2)
       disk_train_dev).2
  = (Ok {| ds_examples := [[1; 101; 4; 4; 102]]; ds_tokenize_calls := 0 |},
     (run (DOIDataset_init word_tokenizer 10 "bert-base" "data/train.txt" 2)
        disk_train_dev).2) /\
  run (TextDataset_init word_tokenizer 10 "bert-base" "data/train.txt" 2)
    (run (TextDataset_init word_tokenizer 10 "bert-base" "data/train.txt" 2)
       disk_train_dev).2
  = (Ok {| ds_examples := [[101; 2; 5; 102]; [101; 1; 4; 102]];
           ds_tokenize_calls := 0 |},
     (run (TextDataset_init word_tokenizer 10 "bert-base" "data/train.txt" 2)
        disk_train_dev).2).
Proof.
  pose proof (surjective_pairing
                (run (DOIDataset_init word_tokenizer 10 "bert-base" "data/train.txt" 2)
                   disk_train_dev)) as H1.
  pose proof (surjective_pairing
                (run (TextDataset_init word_tokenizer 10 "bert-base" "data/train.txt" 2)
                   disk_train_dev)) as H2.
  assert (E1 : (run (DOIDataset_init word_tokenizer 10 "bert-base" "data/train.txt" 2)
                  disk_train_dev).1
               = Ok {| ds_examples := [[1; 101; 4; 4; 102]]; ds_tokenize_calls := 1 |})
    by (vm_compute; reflexivity).
  assert (E2 : (run (TextDataset_init word_tokenizer 10 "bert-base" "data/train.txt" 2)
                  disk_train_dev).1
               = Ok {| ds_examples := [[101; 2; 5; 102]; [101; 1; 4; 102]];
                       ds_tokenize_calls := 2 |})
    by (vm_compute; reflexivity).
  rewrite E1 in H1. rewrite E2 in H2.
  destruct (cache_idempotence _ _ _ _ _ _ _ _ _ _ _ H1 H2) as (_ & Ha & _ & Hb).
  split; [exact Ha | exact Hb].
Defined.

(** ** Rows of sixteen bits *)

Lemma uint16_in_range (x : Z) : in_uint16 (Np.uint16 x).
Proof. unfold in_uint16, Np.uint16. pose proof (Z.mod_pos_bound x 65536). lia. Qed.


Lemma array_uint16_in_range (rows : list (list Z)) :
  uint16_array (Np.array_uint16 rows).
Proof.
  unfold uint16_array, Np.array_uint16.
  apply Forall_forall. intros row Hrow.
  apply list_elem_of_In, in_map_iff in Hrow as (r & <- & _).
  apply Forall_forall. intros x Hx.
  apply list_elem_of_In, in_map_iff in Hx as (y & <- & _). apply uint16_in_range.
Qed.


Lemma index_In {A : Type} (l : list A) (i : Z) (x : A) :
  PyList.index l i = Ok x -> In x l.
Proof.
  unfold PyList.index.
  destruct (_ || _); [discriminate|].
  destruct (nth_error l _) as [y|] eqn:H; [|discriminate].
  intros [= <-]. eapply nth_error_In, H.
Qed.

Lemma for_each_invariant {A S : Type} (P : S -> Prop) (body : A -> S -> result S)
    (xs : list A) :
  (forall x s s', P s -> body x s = Ok s' -> P s') ->
  forall s s', P s -> for_each body xs s = Ok s' -> P s'.
Proof.
  intros Hbody. induction xs as [|x xs IH]; intros s s' Hs; cbn [for_each].
  - now intros [= <-].
  - destruct (body x s) as [s1| |] eqn:H1; try discriminate.
    rewrite bind_Ok. apply IH. eapply Hbody; eassumption.
Qed.

Section ChunkInvariant.
Context {T E : Type}.
Variable tokenize : string -> list T.
Variable emit : string -> list T -> result E.
Variable block_size : Z.
Variable fuel : nat.
Variable Q : E -> Prop.
Hypothesis emit_Q : forall d b e, emit d b = Ok e -> Q e.

Lemma drain_invariant (k : nat) (domain : string) (st st' : chunker T E) :
  Forall Q (examples st) ->
  drain emit block_size k domain st = Ok st' -> Forall Q (examples st').
Proof.
  revert st. induction k as [|k IH]; intros st Hst; cbn [drain];
    destruct (block_size <=? Z.of_nat (length (buffer st)));
    try discriminate; try (now intros [= <-]).
  destruct (popleft_n (Z.to_nat block_size) (buffer st)) as [[block rest]| |];
    try discriminate.
  rewrite bind_Ok.
  destruct (emit domain block) as [e| |] eqn:He; try discriminate.
  rewrite bind_Ok. apply IH. cbn [examples].
  apply Forall_app. split; [assumption|]. repeat constructor. eapply emit_Q, He.
Qed.

Lemma chunk_corpus_invariant (dc : corpus) (st : chunker T E) :
  chunk_corpus tokenize emit block_size fuel dc = Ok st -> Forall Q (examples st).
Proof.
  unfold chunk_corpus.
  apply (for_each_invariant (fun s => Forall Q (examples s))); [|constructor].
  intros d s s' Hs. unfold chunk_domain.
  apply (for_each_invariant (fun s => Forall Q (examples s))); [|assumption].
  clear s s' Hs. intros r s s' Hs. unfold chunk_rating.
  apply (for_each_invariant (fun s => Forall Q (examples s))); [|assumption].
  clear s s' Hs. intros a s s' Hs. unfold chunk_asin.
  apply (for_each_invariant (fun s => Forall Q (examples s))); [|assumption].
  clear s s' Hs. intros text s s' Hs. unfold chunk_text.
  apply drain_invariant. assumption.
Qed.

End ChunkInvariant.

Lemma concatenate_uint16 (arrays : list Np.array) (a : Np.array) :
  Forall uint16_array arrays -> Np.concatenate arrays = Ok a -> uint16_array a.
Proof.
  intros Hall. unfold Np.concatenate.
  destruct arrays as [|a0 arrays]; [discriminate|].
  destruct (Np.same_width _); [|discriminate].
  intros [= <-]. unfold uint16_array in *.
  apply (proj2 (List.Forall_concat _ (a0 :: arrays))). assumption.
Qed.

(** An identifier that does not fit is stored modulo [2^16], and is given
    back as stored. *)
Example uint16_wraps :
  Np.array_uint16 [[65536; 70000; -1; 30522]] = [[0; 4464; 65535; 30522]] /\
  TextDataset_getitem
    {| ds_examples := Np.array_uint16 [[65536; 70000; -1; 30522]];
       ds_tokenize_calls := 0 |} 0
  = Ok [0; 4464; 65535; 30522].
Proof. split; reflexivity. Qed.

(** * Further properties *)

(** X1: the reading loop raises nothing, whatever the lines and the guard
    are: a header line always has a word, and a body line always stands
    under a header. Its corpus is the grouping, by the guard, of the body
    lines of the file with their headers. *)
Theorem reading_never_raises (keep : tag -> string -> corpus -> corpus)
    (lines : list string) :
  read_corpus keep lines = Ok (group_bodies keep (body_lines true None lines) []) /\
  (forall e, read_corpus keep lines <> Raise e) /\
  Forall (fun b => b.2 <> EmptyString /\ Str.split b.2 <> [])
    (body_lines true None lines).
Proof.
  split; [apply read_corpus_bodies|]. split.
  - intros e. rewrite read_corpus_bodies. discriminate.
  - generalize true, (@None tag). induction lines as [|line lines IH];
      intros tag_on cur; cbn [body_lines]; [constructor|].
    destruct (Nat.eqb (String.length (Str.strip line)) 0) eqn:Hblank; [apply IH|].
    destruct tag_on.
    + destruct (parse_header (Str.strip line)); [apply IH | constructor..].
    + destruct cur; [|constructor]. constructor; [|apply IH].
      cbn [snd]. pose proof (strip_length_0 _ Hblank) as Hne.
      split; [exact Hne | now apply split_strip_nonempty].
Qed.

(** ** The cap as an invariant *)

Lemma dict_get_In {V : Type} (k : string) (v : V) (d : list (string * V)) :
  Dict.get k d = Some v -> In (k, v) d.
Proof.
  induction d as [|[k' v'] d IH]; cbn [Dict.get]; [discriminate|].
  destruct (String.eqb_spec k k') as [->|Hne].
  - intros [= ->]. now left.
  - intros H. right. now apply IH.
Qed.

Lemma dict_In_set {V : Type} (k k0 : string) (v v0 : V) (d : list (string * V)) :
  In (k, v) (Dict.set k0 v0 d) -> (k = k0 /\ v = v0) \/ In (k, v) d.
Proof.
  induction d as [|[k' v'] d IH]; cbn [Dict.set].
  - intros [[= <- <-]|[]]. now left.
  - destruct (String.eqb_spec k0 k') as [->|Hne].
    + intros [[= <- <-]|H]; [now left | right; now right].
    + intros [H|H]; [right; now left|].
      destruct (IH H) as [?|?]; [now left | right; now right].
Qed.

Section Capped.
Variable cap : nat.

Lemma capped_lookup (dc : corpus) (d : string) :
  capped cap dc -> ratings_capped cap (Dict.lookup_default [] d dc).
Proof.
  intros H. unfold Dict.lookup_default.
  destruct (Dict.get d dc) as [ratings|] eqn:Hget.
  - intros r asins. apply (H d ratings). now apply dict_get_In.
  - intros r asins [].
Qed.

Lemma ratings_capped_lookup (ratings : asins_of_rating) (r : string) :
  ratings_capped cap ratings -> (length (Dict.lookup_default [] r ratings) <= cap)%nat.
Proof.
  intros H. unfold Dict.lookup_default.
  destruct (Dict.get r ratings) as [asins|] eqn:Hget.
  - apply (H r). now apply dict_get_In.
  - cbn. lia.
Qed.

Lemma ratings_capped_set (ratings : asins_of_rating) (r : string)
    (asins : texts_of_asin) :
  ratings_capped cap ratings -> (length asins <= cap)%nat ->
  ratings_capped cap (Dict.set r asins ratings).
Proof.
  intros H Hlen r' asins' Hin.
  apply dict_In_set in Hin as [[-> ->]|Hin]; [assumption | now apply (H r')].
Qed.

Lemma capped_set (dc : corpus) (d : string) (ratings : asins_of_rating) :
  capped cap dc -> ratings_capped cap ratings -> capped cap (Dict.set d ratings dc).
Proof.
  intros H Hr d' ratings' r asins Hin.
  apply dict_In_set in Hin as [[-> ->]|Hin]; [apply Hr | now apply (H d' ratings')].
Qed.

Lemma dict_length_set_le {V : Type} (k : string) (v : V) (d : list (string * V)) :
  (length (Dict.set k v d) <= S (length d))%nat.
Proof.
  induction d as [|[k' v'] d IH]; cbn [Dict.set length]; [lia|].
  destruct (String.eqb k k'); cbn [length]; lia.
Qed.

End Capped.

Lemma keep_capped_keeps_cap (cap : Z) (h : tag) (text : string) (dc : corpus) :
  capped (Z.to_nat cap) dc -> capped (Z.to_nat cap) (keep_capped cap h text dc).
Proof.
  intros H. unfold keep_capped, count_asins.
  set (ratings := Dict.lookup_default [] (domain h) dc).
  set (asins := Dict.lookup_default [] (rating h) ratings).
  assert (Hr : ratings_capped (Z.to_nat cap) ratings) by now apply capped_lookup.
  assert (Ha : (length asins <= Z.to_nat cap)%nat) by now apply ratings_capped_lookup.
  assert (Hdc' : capped (Z.to_nat cap)
                   (Dict.set (domain h) (Dict.set (rating h) asins ratings) dc)).
  { apply capped_set; [assumption|]. now apply ratings_capped_set. }
  destruct (Z.ltb_spec (Z.of_nat (length asins)) cap) as [Hlt|Hge]; [|exact Hdc'].
  unfold append_text.
  set (dc' := Dict.set (domain h) (Dict.set (rating h) asins ratings) dc) in *.
  apply capped_set; [assumption|].
  assert (Hr' : ratings_capped (Z.to_nat cap) (Dict.lookup_default [] (domain h) dc'))
    by now apply capped_lookup.
  apply ratings_capped_set; [assumption|].
  unfold dc'. rewrite !dict_lookup_default_set_eq.
  pose proof (dict_length_set_le (asin h)
                (Dict.lookup_default [] (asin h) asins ++ [text]) asins). lia.
Qed.

(** X2: whatever the file is, no domain and rating of the corpus of a
    class with a cap tracks more than [cap] identifiers. *)
Theorem cap_is_never_exceeded (cap : Z) (lines : list string) (dc : corpus)
    (d r : string) (ratings : asins_of_rating) (asins : texts_of_asin) :
  read_corpus (keep_capped cap) lines = Ok dc ->
  In (d, ratings) dc -> In (r, asins) ratings ->
  Z.of_nat (length asins) <= Z.max 0 cap.
Proof.
  rewrite read_corpus_bodies. intros [= <-] Hd Hr.
  assert (H : capped (Z.to_nat cap)
                (group_bodies (keep_capped cap) (body_lines true None lines) [])).
  { generalize (body_lines true None lines). intros bodies.
    induction bodies as [|b bodies IH] using rev_ind.
    - intros ? ? ? ? [].
    - rewrite group_bodies_snoc. now apply keep_capped_keeps_cap. }
  pose proof (H d ratings r asins Hd Hr). lia.
Qed.

Lemma cap_is_never_exceeded_witness :
  Z.of_nat (length [("B0", ["t1"]); ("B1", ["t2"])]) <= Z.max 0 2.
Proof.
  apply (cap_is_never_exceeded 2
           ["B0 Books 5"; "t1"; ""; "B1 Books 5"; "t2"; "t3"; ""; "B2 Books 5"; "t4"]
           [("Books", [("5", [("B0", ["t1"]); ("B1", ["t2"])])])]
           "Books" "5" [("5", [("B0", ["t1"]); ("B1", ["t2"])])]).
  - reflexivity.
  - now left.
  - now left.
Defined.

(** ** One call of the tokenizer for each text *)

Lemma drain_calls {T E : Type} (emit : string -> list T -> result E)
    (block_size : Z) (k : nat) (domain : string) (st st' : chunker T E) :
  drain emit block_size k domain st = Ok st' ->
  tokenize_calls st' = tokenize_calls st.
Proof.
  revert st. induction k as [|k IH]; intros st; cbn [drain];
    destruct (block_size <=? Z.of_nat (length (buffer st)));
    try discriminate; try (now intros [= <-]).
  destruct (popleft_n (Z.to_nat block_size) (buffer st)) as [[block rest]| |];
    try discriminate.
  rewrite bind_Ok. destruct (emit domain block) as [e| |]; try discriminate.
  rewrite bind_Ok. intros H. now apply IH in H.
Qed.

Lemma for_each_count {A S : Type} (count : S -> nat) (w : A -> nat)
    (body : A -> S -> result S) (xs : list A) :
  (forall x s s', body x s = Ok s' -> count s' = (count s + w x)%nat) ->
  forall s s', for_each body xs s = Ok s' ->
               count s' = (count s + list_sum (map w xs))%nat.
Proof.
  intros Hbody. induction xs as [|x xs IH]; intros s s'; cbn [for_each map].
  - intros [= <-]. cbn. lia.
  - destruct (body x s) as [s1| |] eqn:H1; try discriminate.
    rewrite bind_Ok. intros H. apply IH in H. apply Hbody in H1.
    change (list_sum (w x :: map w xs)) with (w x + list_sum (map w xs))%nat. lia.
Qed.

Lemma list_sum_ones {A : Type} (l : list A) :
  list_sum (map (fun _ => 1%nat) l) = length l.
Proof.
  induction l as [|x l IH]; [reflexivity|]. cbn [map length].
  change (list_sum (1%nat :: map (fun _ => 1%nat) l))
    with (1 + list_sum (map (fun _ : A => 1%nat) l))%nat. lia.
Qed.

Lemma chunk_rating_calls {T E : Type} (tokenize : string -> list T)
    (emit : string -> list T -> result E) (block_size : Z) (fuel : nat)
    (domain : string) (r : string * texts_of_asin) (st st' : chunker T E) :
  chunk_rating tokenize emit block_size fuel domain r st = Ok st' ->
  tokenize_calls st' = (tokenize_calls st + length (group_texts (snd r)))%nat.
Proof.
  unfold chunk_rating, group_texts. intros H.
  apply (for_each_count tokenize_calls (fun a => length (snd a))) in H.
  - cbn [tokenize_calls] in H. now rewrite length_flat_map.
  - clear. intros a s s' H. unfold chunk_asin in H.
    apply (for_each_count tokenize_calls (fun _ => 1%nat)) in H.
    + rewrite H. f_equal. apply list_sum_ones.
    + clear. intros text s s' H. unfold chunk_text in H.
      apply drain_calls in H. cbn [tokenize_calls] in H. lia.
Qed.

Lemma chunk_domain_calls {T E : Type} (tokenize : string -> list T)
    (emit : string -> list T -> result E) (block_size : Z) (fuel : nat)
    (d : string * asins_of_rating) (st st' : chunker T E) :
  chunk_domain tokenize emit block_size fuel d st = Ok st' ->
  tokenize_calls st'
  = (tokenize_calls st + length (flat_map (fun r => group_texts (snd r)) (snd d)))%nat.
Proof.
  unfold chunk_domain. intros H.
  apply (for_each_count tokenize_calls (fun r => length (group_texts (snd r)))) in H.
  - now rewrite length_flat_map.
  - intros r s s'. apply chunk_rating_calls.
Qed.

(** X3: a chunking that ends has called the tokenizer once for each text
    of the corpus, whatever the block size is. *)
Theorem each_text_tokenized_once {T E : Type} (tokenize : string -> list T)
    (emit : string -> list T -> result E) (block_size : Z) (fuel : nat)
    (dc : corpus) (st : chunker T E) :
  chunk_corpus tokenize emit block_size fuel dc = Ok st ->
  tokenize_calls st = length (corpus_texts dc).
Proof.
  unfold chunk_corpus, corpus_texts. intros H.
  apply (for_each_count tokenize_calls
           (fun d => length (flat_map (fun r => group_texts (snd r)) (snd d)))) in H.
  - cbn [tokenize_calls] in H. now rewrite length_flat_map.
  - intros d s s'. apply chunk_domain_calls.
Qed.

Lemma each_text_tokenized_once_witness :
  tokenize_calls
    {| buffer := ["h"];
       examples := [("Books", ["a"; "b"]); ("Books", ["c"; "d"]); ("Books", ["f"; "g"])];
       tokenize_calls := 3 |}
  = length (corpus_texts corpus_two_groups).
Proof.
  apply (each_text_tokenized_once Str.split emit_raw 2 10 corpus_two_groups).
  reflexivity.
Defined.

(** ** A domain that the vocabulary does not have *)


Lemma chunk_examples_Ok {T E : Type} (r : result (chunker T E)) (exs : list E) :
  (r ≫= fun s => Ok (examples s)) = Ok exs -> exists st, r = Ok st /\ examples st = exs.
Proof. destruct r as [st| |]; cbn; try discriminate. intros [= <-]. eauto. Qed.





(** ** The classes of one merged domain *)






(** ** The classes with tags *)






Lemma fold_set_keeps_key (ks : list string) (v0 : list (string * Z)) (k : string) :
  Dict.get k v0 <> None ->
  Dict.get k (fold_left (fun v k => Dict.set k (Z.of_nat (length v)) v) ks v0) <> None.
Proof.
  revert v0. induction ks as [|k' ks IH]; intros v0 Hk; [exact Hk|].
  cbn [fold_left]. apply IH.
  destruct (String.eqb_spec k' k) as [->|Hne].
  - now rewrite dict_get_set_eq.
  - now rewrite dict_get_set_ne.
Qed.





Example only_two_domains_rows :
  fixed_domain_blocks Str.split 2 DOIDataset_dois corpus_mixed
  = [("Electronics/Computers & Accessories/Laptops", ["p"; "q"]);
     ("Electronics/Computers & Accessories/Laptops", ["r"; "s"]);
     ("Restaurants", ["x"; "y"])].
Proof. reflexivity. Qed.

(** ** The loops of [TextDataset] and [SkipTagDataset] *)










(** ** The constructions of [DOIDataset], from the files to the array *)


Lemma run_json_dump (obj : list (string * Z)) (p : string) (fs : disk) :
  fs !! p <> Some Directory ->
  run (Os.json_dump obj p) fs = (Ok tt, <[p := JsonFile obj]> fs).
Proof.
  intros H. cbn [Os.json_dump run]. destruct (fs !! p) as [[| | |]|]; congruence.
Qed.


Lemma is_file_text (fs : disk) (p : string) (lines : list string) :
  fs !! p = Some (TextFile lines) -> Os.is_file fs p = true.
Proof. intros H. unfold Os.is_file. now rewrite H. Qed.

(** The construction, once the source is read and the cache file is
    missing. *)
Lemma DOIDataset_init_miss (tk : Tokenizer) (fuel : nat)
    (model_type file_path : string) (block_size : Z) (fs : disk)
    (lines : list string) :
  fs !! file_path = Some (TextFile lines) ->
  fs !! cache_path "cached_doimerged_" file_path block_size = None ->
  run (DOIDataset_init tk fuel model_type file_path block_size) fs
  = run (DOIDataset_build tk fuel file_path block_size) fs.
Proof.
  intros Hsrc Hmiss. unfold DOIDataset_init.
  rewrite run_asserted, (is_file_text _ _ _ Hsrc), run_model_type.
  now apply load_or_miss.
Qed.

(** The rows of a training file: the vocabulary built from the corpus has
    an entry for each of its domains. *)
Lemma DOIDataset_train_rows (tk : Tokenizer) (lines : list string)
    (block_size : Z) (fuel : nat) :
  0 < block_size ->
  let dc := group_bodies (keep_not_in DOIDataset_dois) (body_lines true None lines) [] in
  let vocab := DOIDataset_vocab DOIDataset_dois dc in
  let blocks := corpus_blocks (tokenize tk) (Z.to_nat block_size) dc in
  Forall (fun s => (length s < fuel)%nat) (corpus_streams (tokenize tk) dc) ->
  exists st,
    chunk_corpus (tokenize tk) (DOIDataset_example tk DOIDataset_dois vocab)
      block_size fuel dc = Ok st /\
    examples st = map (fun p => DOIDataset_row tk [vocab_id vocab p.1] p.2) blocks /\
    tokenize_calls st = length (corpus_texts dc).
Proof.
  intros Hpos dc vocab blocks Hfuel.
  assert (Hdc : read_corpus (keep_not_in DOIDataset_dois) lines = Ok dc)
    by apply read_corpus_bodies.
  pose proof (keys_not_in_dois _ _ _ Hdc) as Hout.
  assert (Hrun : exists st,
             chunk_corpus (tokenize tk) (DOIDataset_example tk DOIDataset_dois vocab)
               block_size fuel dc = Ok st /\
             examples st = map (fun p => DOIDataset_row tk [vocab_id vocab p.1] p.2) blocks).
  { apply chunk_examples_Ok.
    rewrite (chunk_corpus_examples _ _ _ _ Hpos _ Hfuel).
    rewrite (emit_all_total _ (fun d b => DOIDataset_row tk [vocab_id vocab d] b));
      [reflexivity|].
    intros d b Hin.
    assert (Hd : In d (Dict.keys dc)) by (eapply corpus_blocks_domain, Hin).
    destruct (DOIDataset_vocab_positive DOIDataset_dois dc d Hd (Hout d Hd))
      as (i & Hi & _).
    unfold DOIDataset_example. rewrite DOIDataset_segment_own by now apply Hout.
    unfold own_segment, Dict.getitem, vocab_id, Dict.lookup_default.
    fold vocab in Hi. now rewrite Hi. }
  destruct Hrun as (st & Hst & Hex). exists st. split; [assumption|]. split; [assumption|].
  destruct (chunk_corpus (tokenize tk) (DOIDataset_example tk DOIDataset_dois vocab)
              block_size fuel dc) as [st'| |] eqn:Hc; try discriminate.
  injection Hst as <-. clear Hex. revert Hc.
  unfold chunk_corpus, corpus_texts. intros H.
  apply (for_each_count tokenize_calls
           (fun d => length (flat_map (fun r => group_texts (snd r)) (snd d)))) in H.
  - cbn [tokenize_calls] in H. now rewrite length_flat_map.
  - intros d s s'. apply chunk_domain_calls.
Qed.

(** X11: on a file that is not a training file, without the vocabulary
    file that a training run writes, the construction of [DOIDataset]
    raises the error of [open] before any tokenization, and writes
    nothing. *)
Theorem vocabulary_not_found (tk : Tokenizer) (fuel : nat)
    (model_type file_path : string) (block_size : Z) (fs : disk)
    (lines : list string) :
  fs !! file_path = Some (TextFile lines) ->
  fs !! cache_path "cached_doimerged_" file_path block_size = None ->
  Str.contains "train" file_path = false ->
  fs !! doi_domain_path file_path = None ->
  run (DOIDataset_init tk fuel model_type file_path block_size) fs
  = (Raise OSError, fs).
Proof.
  intros Hsrc Hmiss Htrain Hvocab.
  rewrite (DOIDataset_init_miss _ _ _ _ _ _ lines) by assumption.
  unfold DOIDataset_build. rewrite run_bind. cbn [Os.read_lines run]. rewrite Hsrc.
  rewrite run_bind, run_lift, read_corpus_bodies, run_bind, Htrain.
  cbn [Os.json_load run]. fold (doi_domain_path file_path). now rewrite Hvocab.
Qed.

Lemma vocabulary_not_found_witness :
  run (DOIDataset_init word_tokenizer 10 "bert-base" "data/dev.txt" 2) disk_dev
  = (Raise OSError, disk_dev).
Proof.
  apply (vocabulary_not_found word_tokenizer 10 "bert-base" "data/dev.txt" 2 disk_dev
           ["A1 Books 5"; "good text"]); vm_compute; reflexivity.
Defined.

(** X12: when no domain and rating of a training file has the tokens of a
    block, [np.concatenate] raises [ValueError] on the empty list of
    examples: no cache file is saved, but the vocabulary has been
    written. *)
Theorem no_block_ValueError (tk : Tokenizer) (fuel : nat)
    (model_type file_path : string) (block_size : Z) (fs : disk)
    (lines : list string) :
  fs !! file_path = Some (TextFile lines) ->
  fs !! cache_path "cached_doimerged_" file_path block_size = None ->
  Str.contains "train" file_path = true ->
  fs !! doi_domain_path file_path <> Some Directory ->
  0 < block_size ->
  let dc := group_bodies (keep_not_in DOIDataset_dois) (body_lines true None lines) [] in
  Forall (fun s => (length s < fuel)%nat) (corpus_streams (tokenize tk) dc) ->
  corpus_blocks (tokenize tk) (Z.to_nat block_size) dc = [] ->
  run (DOIDataset_init tk fuel model_type file_path block_size) fs
  = (Raise ValueError,
     <[doi_domain_path file_path := JsonFile (DOIDataset_vocab DOIDataset_dois dc)]> fs).
Proof.
  intros Hsrc Hmiss Htrain Hvocab Hpos dc Hfuel Hblocks.
  rewrite (DOIDataset_init_miss _ _ _ _ _ _ lines) by assumption.
  unfold DOIDataset_build. rewrite run_bind. cbn [Os.read_lines run]. rewrite Hsrc.
  rewrite run_bind, run_lift, read_corpus_bodies, run_bind, Htrain.
  fold dc. fold (doi_domain_path file_path).
  rewrite run_bind, run_json_dump by assumption. rewrite run_mret.
  destruct (DOIDataset_train_rows tk lines block_size fuel Hpos Hfuel)
    as (st & Hst & Hex & _).
  fold dc in Hst, Hex. rewrite run_bind, run_lift, Hst.
  rewrite Hblocks in Hex. cbn [map] in Hex.
  rewrite run_bind, run_lift, Hex. reflexivity.
Qed.

Lemma no_block_ValueError_witness :
  run (DOIDataset_init word_tokenizer 10 "bert-base" "data/train.txt" 3) disk_train
  = (Raise ValueError,
     <["data/doi_domain.json" := JsonFile [("[DOI]", 0); ("Books", 1)]]> disk_train).
Proof.
  apply (no_block_ValueError word_tokenizer 10 "bert-base" "data/train.txt" 3 disk_train
           ["A1 Books 5"; "good text"]).
  - reflexivity.
  - vm_compute. reflexivity.
  - reflexivity.
  - vm_compute. discriminate.
  - lia.
  - vm_compute. repeat constructor.
  - reflexivity.
Defined.






(** ** Where a body line goes *)

Lemma dict_lookup_default_set_ne {V : Type} (dflt : V) (k k' : string) (v : V)
    (d : list (string * V)) :
  k <> k' -> Dict.lookup_default dflt k' (Dict.set k v d) = Dict.lookup_default dflt k' d.
Proof. intros H. unfold Dict.lookup_default. now rewrite dict_get_set_ne. Qed.

Lemma texts_at_append_text_other (h h' : tag) (text : string) (dc : corpus) :
  tag_eqb h h' = false ->
  texts_at h (append_text h' text dc) = texts_at h dc.
Proof.
  unfold tag_eqb, texts_at, asins_at, append_text. intros Hne.
  destruct (String.eqb_spec (domain h) (domain h')) as [Hd|Hd].
  - rewrite <- Hd. rewrite dict_lookup_default_set_eq.
    destruct (String.eqb_spec (rating h) (rating h')) as [Hr|Hr].
    + rewrite <- Hr. rewrite dict_lookup_default_set_eq.
      destruct (String.eqb_spec (asin h) (asin h')) as [Ha|Ha]; [discriminate|].
      now rewrite dict_lookup_default_set_ne by congruence.
    + now rewrite dict_lookup_default_set_ne by congruence.
  - now rewrite dict_lookup_default_set_ne by congruence.
Qed.

Lemma tag_eqb_eq (h h' : tag) : tag_eqb h h' = true -> h = h'.
Proof.
  unfold tag_eqb. destruct h as [a r d], h' as [a' r' d']. cbn [asin rating domain].
  destruct (String.eqb_spec a a'); [|discriminate].
  destruct (String.eqb_spec r r'); [|discriminate].
  destruct (String.eqb_spec d d'); [|discriminate].
  intros _. congruence.
Qed.

Lemma texts_at_keep_not_in (dois : list string) (h h' : tag) (text : string)
    (dc : corpus) :
  texts_at h (keep_not_in dois h' text dc)
  = if not_doi dois (domain h') && tag_eqb h h' then texts_at h dc ++ [text]
    else texts_at h dc.
Proof.
  unfold keep_not_in, not_doi.
  destruct (negb (PyList.mem (domain h') dois)); [|reflexivity]. cbn [andb].
  destruct (tag_eqb h h') eqn:E.
  - apply tag_eqb_eq in E. subst h'. apply texts_at_append_text.
  - now apply texts_at_append_text_other.
Qed.

(** X14: in the corpus of [DOIDataset], the texts of an identifier under
    a domain and a rating are the body lines that stand under the headers
    with that identifier, domain and rating, in the order of the file;
    nothing is kept for a domain of interest. No body line is lost, moved
    or doubled. *)
Theorem grouping_keeps_file_order (lines : list string) (dc : corpus) (h : tag) :
  read_corpus (keep_not_in DOIDataset_dois) lines = Ok dc ->
  texts_at h dc
  = if PyList.mem (domain h) DOIDataset_dois then []
    else texts_under h (body_lines true None lines).
Proof.
  rewrite read_corpus_bodies. intros [= <-].
  generalize (body_lines true None lines). intros bodies.
  induction bodies as [|b bodies IH] using rev_ind.
  - now destruct (PyList.mem (domain h) DOIDataset_dois).
  - rewrite group_bodies_snoc, texts_at_keep_not_in, IH.
    unfold texts_under. rewrite List.filter_app, map_app. cbn [List.filter].
    unfold not_doi.
    destruct (tag_eqb h b.1) eqn:E.
    + apply tag_eqb_eq in E. rewrite <- E.
      destruct (PyList.mem (domain h) DOIDataset_dois); reflexivity.
    + rewrite andb_false_r. cbn [map]. rewrite app_nil_r. reflexivity.
Qed.

Lemma grouping_keeps_file_order_witness :
  texts_at {| asin := "A1"; rating := "good"; domain := "Books/Fiction" |}
    corpus_books_music
  = if PyList.mem "Books/Fiction" DOIDataset_dois then []
    else texts_under {| asin := "A1"; rating := "good"; domain := "Books/Fiction" |}
           (body_lines true None lines_books_music).
Proof.
  apply (grouping_keeps_file_order lines_books_music corpus_books_music
           {| asin := "A1"; rating := "good"; domain := "Books/Fiction" |}).
  reflexivity.
Defined.

(** ** Indexing a dataset *)

Lemma index_nth {A : Type} (l : list A) (i : Z) :
  0 <= i < Z.of_nat (length l) ->
  exists x, nth_error l (Z.to_nat i) = Some x /\ PyList.index l i = Ok x.
Proof.
  intros Hi. unfold PyList.index.
  destruct (Z.ltb_spec i 0); [lia|].
  destruct (Z.ltb_spec i 0); [lia|].
  destruct (Z.leb_spec (Z.of_nat (length l)) i); [lia|]. cbn [orb].
  destruct (nth_error l (Z.to_nat i)) as [x|] eqn:Hx; [eauto|].
  apply nth_error_None in Hx. lia.
Qed.

Lemma index_negative {A : Type} (l : list A) (i : Z) :
  - Z.of_nat (length l) <= i < 0 ->
  PyList.index l i = PyList.index l (i + Z.of_nat (length l)).
Proof.
  intros Hi.
  assert (E1 : (i <? 0) = true) by (apply Z.ltb_lt; lia).
  assert (E2 : (i + Z.of_nat (length l) <? 0) = false) by (apply Z.ltb_ge; lia).
  unfold PyList.index. rewrite E1, !E2. reflexivity.
Qed.

Lemma index_out_of_range {A : Type} (l : list A) (i : Z) :
  i < - Z.of_nat (length l) \/ Z.of_nat (length l) <= i ->
  PyList.index l i = Raise IndexError.
Proof.
  intros Hi. unfold PyList.index.
  destruct (Z.ltb_spec i 0).
  - destruct (Z.ltb_spec (i + Z.of_nat (length l)) 0); [reflexivity | lia].
  - destruct (Z.ltb_spec i 0); [lia|].
    destruct (Z.leb_spec (Z.of_nat (length l)) i); [reflexivity | lia].
Qed.

(** X15: a dataset of [n] rows gives its row [item] for [0 <= item < n],
    the row [item + n] for [-n <= item < 0], and raises [IndexError] for
    any other [item]; [__len__] is [n]. *)
Theorem getitem_bounds (self : dataset) (item : Z) :
  TextDataset_len self = Z.of_nat (length (ds_examples self)) /\
  (0 <= item < TextDataset_len self ->
   exists row, nth_error (ds_examples self) (Z.to_nat item) = Some row /\
               TextDataset_getitem self item = Ok (map Np.int64 row)) /\
  (- TextDataset_len self <= item < 0 ->
   TextDataset_getitem self item
   = TextDataset_getitem self (item + TextDataset_len self)) /\
  (item < - TextDataset_len self \/ TextDataset_len self <= item ->
   TextDataset_getitem self item = Raise IndexError).
Proof.
  unfold TextDataset_len, TextDataset_getitem. split; [reflexivity|].
  split; [|split].
  - intros Hi. destruct (index_nth (ds_examples self) item Hi) as (row & Hn & Hrow).
    exists row. split; [assumption|]. now rewrite Hrow.
  - intros Hi. now rewrite index_negative.
  - intros Hi. now rewrite index_out_of_range.
Qed.

(** ** The classes of one merged domain and the vocabulary *)

(** X16: [LaptopDomainDataset], [RestDomainDataset] and [LRDataset] build
    no vocabulary, not even on a training file: without the file that a
    training run of [DOIDataset] writes, their construction raises the
    error of [open] before any tokenization and writes nothing. *)
Theorem domain_classes_need_vocabulary (tk : Tokenizer) (fuel : nat)
    (prefix : string) (dois : list string) (model_type file_path : string)
    (block_size : Z) (fs : disk) (lines : list string) :
  fs !! file_path = Some (TextFile lines) ->
  fs !! cache_path prefix file_path block_size = None ->
  fs !! doi_domain_path file_path = None ->
  run (DomainDataset_init tk fuel prefix dois model_type file_path block_size) fs
  = (Raise OSError, fs).
Proof.
  intros Hsrc Hmiss Hvocab. unfold DomainDataset_init.
  rewrite run_asserted, (is_file_text _ _ _ Hsrc), run_model_type.
  rewrite load_or_miss by assumption.
  unfold DomainDataset_build. rewrite run_bind. cbn [Os.read_lines run]. rewrite Hsrc.
  rewrite run_bind, run_lift, read_corpus_bodies, run_bind.
  cbn [Os.json_load run]. fold (doi_domain_path file_path). now rewrite Hvocab.
Qed.

Lemma domain_classes_need_vocabulary_witness :
  run (LaptopDomainDataset_init word_tokenizer 10 "bert-base" "data/train.txt" 2)
    disk_train
  = (Raise OSError, disk_train).
Proof.
  apply (domain_classes_need_vocabulary word_tokenizer 10 "cached_laptop_"
           LaptopDomainDataset_dois "bert-base" "data/train.txt" 2 disk_train
           ["A1 Books 5"; "good text"]); vm_compute; reflexivity.
Defined.

(** ** The shape of a parsed header *)

Lemma has_space_append (s : string) (c : ascii) :
  has_space (s +:+ String c EmptyString) = has_space s || Str.is_space c.
Proof.
  induction s as [|d s IH]; simpl.
  - now destruct (Str.is_space c).
  - rewrite IH. now destruct (Str.is_space d).
Qed.

Lemma split_go_words (tok s : string) :
  has_space tok = false ->
  Forall (fun w => w <> EmptyString /\ has_space w = false) (Str.split_go tok s).
Proof.
  revert tok. induction s as [|c s IH]; intros tok Htok; cbn [Str.split_go].
  - destruct tok; [constructor|]. repeat constructor; [discriminate | assumption].
  - destruct (Str.is_space c) eqn:Hc.
    + apply Forall_app. split; [|now apply IH].
      destruct tok; [constructor|]. repeat constructor; [discriminate | assumption].
    + apply IH. rewrite has_space_append, Htok, Hc. reflexivity.
Qed.

Lemma count_char_append (c : ascii) (s t : string) :
  count_char c (s +:+ t) = (count_char c s + count_char c t)%nat.
Proof.
  induction s as [|d s IH]; simpl; [reflexivity|].
  rewrite IH. lia.
Qed.

Lemma split_on_go_fields (sep : ascii) (tok s : string) :
  count_char sep tok = 0%nat ->
  Forall (fun f => count_char sep f = 0%nat) (Str.split_on_go sep tok s).
Proof.
  revert tok. induction s as [|c s IH]; intros tok Htok; cbn [Str.split_on_go].
  - repeat constructor. assumption.
  - destruct (Ascii.eqb c sep) eqn:Hc.
    + constructor; [assumption|]. now apply IH.
    + apply IH. rewrite count_char_append, Htok. simpl. now rewrite Hc.
Qed.

Lemma count_char_join (l : list string) :
  Forall (fun f => count_char "/" f = 0%nat) l ->
  count_char "/" (Str.join "/" l) = Nat.pred (length l).
Proof.
  unfold Str.join. induction 1 as [|f l Hf Hl IH]; [reflexivity|].
  destruct l as [|g l].
  - cbn [String.concat length Nat.pred]. exact Hf.
  - change (String.concat "/" (f :: g :: l))
      with (f +:+ "/" +:+ String.concat "/" (g :: l)).
    rewrite !count_char_append, Hf, IH. reflexivity.
Qed.

(** X17: the domain of a parsed header has at most two slashes (three
    segments); its identifier and its rating are words: they are not
    empty and have no space. *)
Theorem parsed_header_shape (text : string) (h : tag) :
  parse_header text = Ok h ->
  (count_char "/" (domain h) <= 2)%nat /\
  (asin h <> EmptyString /\ has_space (asin h) = false) /\
  (rating h <> EmptyString /\ has_space (rating h) = false).
Proof.
  unfold parse_header. intros H.
  destruct (PyList.index (Str.split text) 0) as [a| |] eqn:Ha; try discriminate.
  rewrite bind_Ok in H.
  destruct (PyList.index (Str.split text) (-1)) as [r| |] eqn:Hr; try discriminate.
  rewrite bind_Ok in H. injection H as <-. cbn [asin rating domain].
  pose proof (split_go_words EmptyString text eq_refl) as Hwords.
  fold (Str.split text) in Hwords. rewrite Forall_forall in Hwords.
  split; [|split].
  - rewrite slice_prefix by lia. change (Z.to_nat 3) with 3%nat.
    rewrite count_char_join.
    + rewrite length_take. lia.
    + apply Forall_take. now apply split_on_go_fields.
  - apply Hwords, list_elem_of_In. eapply index_In, Ha.
  - apply Hwords, list_elem_of_In. eapply index_In, Hr.
Qed.

Lemma parsed_header_shape_witness :
  (count_char "/" "Electronics/Computers & Accessories/Laptops" <= 2)%nat /\
  ("A1"%string <> EmptyString /\ has_space "A1" = false) /\
  ("good"%string <> EmptyString /\ has_space "good" = false).
Proof.
  apply (parsed_header_shape
           "A1 Electronics/Computers & Accessories/Laptops/Sub good"
           {| asin := "A1"; rating := "good";
              domain := "Electronics/Computers & Accessories/Laptops" |}).
  reflexivity.
Defined.

(** ** A block size that is not positive *)

Lemma chunk_texts_diverge {T E : Type} (tokenize : string -> list T)
    (emit : string -> list T -> result E) (block_size : Z) (fuel : nat)
    (domain : string) (texts : list string) (st : chunker T E) :
  block_size <= 0 ->
  (forall d b, exists e, emit d b = Ok e) ->
  texts <> [] ->
  for_each (chunk_text tokenize emit block_size fuel domain) texts st = OutOfFuel.
Proof.
  intros Hbs Hemit Hne. destruct texts as [|text texts]; [congruence|].
  cbn [for_each]. rewrite chunk_text_unfold.
  rewrite drain_diverges by assumption. reflexivity.
Qed.

Lemma for_each_diverge {A S : Type} (body : A -> S -> result S) (w : A -> list string)
    (xs : list A) :
  (forall x s, w x = [] -> exists s', body x s = Ok s') ->
  (forall x s, w x <> [] -> body x s = OutOfFuel) ->
  flat_map w xs <> [] ->
  forall s, for_each body xs s = OutOfFuel.
Proof.
  intros Hempty Hfull. induction xs as [|x xs IH]; intros Hne s; [now destruct Hne|].
  cbn [for_each]. cbn [flat_map] in Hne.
  destruct (w x) as [|t l] eqn:Hw.
  - destruct (Hempty x s Hw) as [s' ->]. cbn. now apply IH.
  - rewrite Hfull; [reflexivity|]. rewrite Hw. discriminate.
Qed.

Lemma for_each_empty {A S : Type} (body : A -> S -> result S) (w : A -> list string)
    (xs : list A) :
  (forall x s, w x = [] -> exists s', body x s = Ok s') ->
  flat_map w xs = [] ->
  forall s, exists s', for_each body xs s = Ok s'.
Proof.
  intros Hempty. induction xs as [|x xs IH]; intros Hnil s; [eexists; reflexivity|].
  cbn [for_each]. cbn [flat_map] in Hnil. apply app_eq_nil in Hnil as [Hx Hxs].
  destruct (Hempty x s Hx) as [s' ->]. cbn. now apply IH.
Qed.

(** X18: with a block size that is zero or negative, the chunking of a
    corpus that has a text never ends (it has no result, whatever amount
    of fuel the [while] loop is given): the loop test
    [len(buffer) >= block_size] stays true. *)
Theorem nonpositive_block_size_diverges {T E : Type} (tokenize : string -> list T)
    (emit : string -> list T -> result E) (block_size : Z) (fuel : nat)
    (dc : corpus) :
  block_size <= 0 ->
  (forall d b, exists e, emit d b = Ok e) ->
  corpus_texts dc <> [] ->
  chunk_corpus tokenize emit block_size fuel dc = OutOfFuel.
Proof.
  intros Hbs Hemit Hne. unfold chunk_corpus.
  assert (Hasin_e : forall d (a : string * list string) (s : chunker T E),
             snd a = [] ->
             exists s', chunk_asin tokenize emit block_size fuel d a s = Ok s').
  { intros d a s Ha. unfold chunk_asin. rewrite Ha. eexists. reflexivity. }
  assert (Hasin_f : forall d (a : string * list string) (s : chunker T E),
             snd a <> [] ->
             chunk_asin tokenize emit block_size fuel d a s = OutOfFuel).
  { intros d a s Ha. unfold chunk_asin. now apply chunk_texts_diverge. }
  assert (Hrat_e : forall d (r : string * texts_of_asin) (s : chunker T E),
             group_texts (snd r) = [] ->
             exists s', chunk_rating tokenize emit block_size fuel d r s = Ok s').
  { intros d r s Hr. unfold chunk_rating.
    apply (for_each_empty _ snd); [apply Hasin_e | exact Hr]. }
  assert (Hrat_f : forall d (r : string * texts_of_asin) (s : chunker T E),
             group_texts (snd r) <> [] ->
             chunk_rating tokenize emit block_size fuel d r s = OutOfFuel).
  { intros d r s Hr. unfold chunk_rating.
    apply (for_each_diverge _ snd); [apply Hasin_e | apply Hasin_f | exact Hr]. }
  apply (for_each_diverge _
           (fun d => flat_map (fun r => group_texts (snd r)) (snd d)));
    [| |exact Hne].
  - intros d s Hd. unfold chunk_domain.
    apply (for_each_empty _ (fun r => group_texts (snd r))); [apply Hrat_e | exact Hd].
  - intros d s Hd. unfold chunk_domain.
    apply (for_each_diverge _ (fun r => group_texts (snd r)));
      [apply Hrat_e | apply Hrat_f | exact Hd].
Qed.

Lemma nonpositive_block_size_diverges_witness :
  chunk_corpus Str.split (@emit_raw string) 0 1000 corpus_two_groups = OutOfFuel.
Proof.
  apply (nonpositive_block_size_diverges Str.split (@emit_raw string) 0 1000
           corpus_two_groups).
  - lia.
  - intros d b. eexists. reflexivity.
  - discriminate.
Defined.

(** ** The construction of [DOIDataset] with a loaded vocabulary *)




(** ** The rows that a construction stores *)









